(** * DirectSound audio sink: ring-buffer writer, delay query and reset

    A shallow embedding of [sys/directsound/gstdirectsoundsink.c].

    The sink drives one secondary DirectSound buffer through the COM
    interface [IDirectSoundBuffer].  The device is not part of the
    element: it is an interface here, a record of state transformers over
    an arbitrary device state, so that every theorem holds for every
    behaviour of the sound card.  The element's own state (the
    [GstDirectSoundSink] instance), the process memory that [memcpy] and
    [memset] write, and a log of the calls made are threaded through a
    small state monad whose results can also be a crash (a method called
    through a NULL interface pointer, an integer division by zero) or the
    exhaustion of the fuel that bounds the polling loop of [write].

    The session mutex ([GST_DSOUND_LOCK] / [GST_DSOUND_UNLOCK]) is not
    modelled: the embedding is sequential. *)

From Stdlib Require Import ZArith List Lia Bool.
From Stdlib Require Strings.Byte.
Import ListNotations.
Local Open Scope Z_scope.

(** ** Machine integers *)

(** [DWORD], [guint] and [unsigned long] are 32-bit unsigned on Windows,
    [WORD] is 16-bit unsigned, [gint] and [HRESULT] are 32-bit signed. *)
Definition u32 (x : Z) : Z := x mod 2 ^ 32.
Definition u16 (x : Z) : Z := x mod 2 ^ 16.
Definition s32 (x : Z) : Z := (x + 2 ^ 31) mod 2 ^ 32 - 2 ^ 31.

Definition HRESULT := Z.
Definition DWORD := Z.
Definition guint := Z.
Definition LPVOID := Z.

Definition NULL : LPVOID := 0.
Definition is_null (p : LPVOID) : bool := p =? NULL.

(** winerror.h *)
Definition S_OK : HRESULT := 0.
Definition SUCCEEDED (hr : HRESULT) : bool := 0 <=? hr.
Definition FAILED (hr : HRESULT) : bool := hr <? 0.

(** dsound.h *)
Definition DSBSTATUS_PLAYING : DWORD := 1.
Definition DSBSTATUS_BUFFERLOST : DWORD := 2.
Definition DSBPLAY_LOOPING : DWORD := 1.
Definition DSBSIZE_MIN : DWORD := 4.
Definition DSBCAPS_CTRLVOLUME : DWORD := 128.
Definition DSBCAPS_GLOBALFOCUS : DWORD := 32768.
Definition DSBCAPS_GETCURRENTPOSITION2 : DWORD := 65536.
Definition WAVE_FORMAT_PCM : Z := 1.

(** The C test [dwStatus & FLAG]. *)
Definition has_flag (dwStatus flag : DWORD) : bool :=
  negb (Z.land dwStatus flag =? 0).

(** ** Process memory *)

Definition Memory := Z -> Byte.byte.

(** [memcpy (dst, src, n)]: the source is read in the memory as it is
    before the call (the regions of a C [memcpy] do not overlap). *)
Definition memcpy (dst src n : Z) (m : Memory) : Memory :=
  fun a => if (dst <=? a) && (a <? dst + n) then m (src + (a - dst)) else m a.

(** [memset (dst, c, n)]. *)
Definition memset (dst : Z) (c : Byte.byte) (n : Z) (m : Memory) : Memory :=
  fun a => if (dst <=? a) && (a <? dst + n) then c else m a.

(** The [n] bytes found at address [p]. *)
Definition bytes_at (m : Memory) (p : Z) (n : nat) : list Byte.byte :=
  map (fun i => m (p + Z.of_nat i)) (seq 0 n).

(** ** Data passed to and from the device *)

(** WAVEFORMATEX (mmreg.h): [nChannels], [nBlockAlign] and
    [wBitsPerSample] are WORDs, the two rates are DWORDs. *)
Record WAVEFORMATEX := {
  wFormatTag : Z;
  nChannels : Z;
  nSamplesPerSec : Z;
  nAvgBytesPerSec : Z;
  nBlockAlign : Z;
  wBitsPerSample : Z;
  cbSize : Z
}.

Record DSBUFFERDESC := {
  dwFlags : DWORD;
  dwBufferBytes : DWORD;
  lpwfxFormat : WAVEFORMATEX
}.

(** The fields of GstRingBufferSpec that [prepare] reads, all [gint]. *)
Record GstRingBufferSpec := {
  channels : Z;
  rate : Z;
  spec_bytes_per_sample : Z
}.

(** The four out-parameters of [IDirectSoundBuffer::Lock]. *)
Record LockedRegions := {
  pLockedBuffer1 : LPVOID;
  dwSizeBuffer1 : DWORD;
  pLockedBuffer2 : LPVOID;
  dwSizeBuffer2 : DWORD
}.

(** ** The device interface

    Each method takes the device state and returns the HRESULT, the
    content of its out-parameters after the call, and the next device
    state.  For a failing call the out-parameter value stands for
    whatever the C variable holds afterwards.  [Sleep] lets time pass on
    the device. *)
Record DirectSound (HW : Type) := {
  DirectSoundCreate : HW -> (HRESULT * LPVOID) * HW;
  SetCooperativeLevel : HW -> HRESULT * HW;
  ReleaseDirectSound : HW -> HW;
  CreateSoundBuffer : DSBUFFERDESC -> HW -> (HRESULT * LPVOID) * HW;
  Release : HW -> HW;
  SetVolume : Z -> HW -> HRESULT * HW;
  GetStatus : HW -> (HRESULT * DWORD) * HW;
  GetCurrentPosition : HW -> (HRESULT * DWORD) * HW;
  Restore : HW -> HRESULT * HW;
  (* offset, bytes, whether the second region's out-pointers are given *)
  Lock : DWORD -> DWORD -> bool -> HW -> (HRESULT * LockedRegions) * HW;
  Unlock : LockedRegions -> HW -> HRESULT * HW;
  Play : DWORD -> HW -> HRESULT * HW;
  Stop : HW -> HRESULT * HW;
  SetCurrentPosition : DWORD -> HW -> HRESULT * HW;
  Sleep : Z -> HW -> HW
}.

Arguments DirectSoundCreate {HW}.
Arguments SetCooperativeLevel {HW}.
Arguments ReleaseDirectSound {HW}.
Arguments CreateSoundBuffer {HW}.
Arguments Release {HW}.
Arguments SetVolume {HW}.
Arguments GetStatus {HW}.
Arguments GetCurrentPosition {HW}.
Arguments Restore {HW}.
Arguments Lock {HW}.
Arguments Unlock {HW}.
Arguments Play {HW}.
Arguments Stop {HW}.
Arguments SetCurrentPosition {HW}.
Arguments Sleep {HW}.

(** The log of what the element did, newest call first. *)
Inductive Call :=
| CallDirectSoundCreate (hRes : HRESULT)
| CallSetCooperativeLevel (hRes : HRESULT)
| CallReleaseDirectSound
| CallCreateSoundBuffer (desc : DSBUFFERDESC) (hRes : HRESULT)
| CallRelease
| CallSetVolume (level : Z) (hRes : HRESULT)
| CallGetStatus (hRes : HRESULT) (dwStatus : DWORD)
| CallGetCurrentPosition (hRes : HRESULT) (dwCurrentPlayCursor : DWORD)
| CallRestore (hRes : HRESULT)
| CallLock (offset bytes : DWORD) (hRes : HRESULT) (regions : LockedRegions)
| CallUnlock (regions : LockedRegions) (hRes : HRESULT)
| CallPlay (flags : DWORD) (hRes : HRESULT)
| CallStop (hRes : HRESULT)
| CallSetCurrentPosition (position : DWORD) (hRes : HRESULT)
| CallSleep (ms : Z)
| CallMemcpy (dst src n : Z)
| CallMemset (dst n : Z).

(** ** The element instance *)

(** Modelled from the spec: the declaration of [struct _GstDirectSoundSink]
    is in gstdirectsoundsink.h, which is not among the sources.  The
    fields are the ones the .c file uses (the spec's Session:
    hardware_buffer_handle, capacity_bytes, write_offset_bytes,
    bytes_per_sample, attenuation_level, reset_flag); the three sizes are
    [guint], as the DWORD arithmetic of the .c file treats them. *)
Record GstDirectSoundSink := {
  pDS : LPVOID;
  pDSBSecondary : LPVOID;
  buffer_size : guint;
  current_circular_offset : guint;
  bytes_per_sample : guint;
  attenuation : Z;
  first_buffer_after_reset : bool
}.

Definition set_pDS (p : LPVOID) (s : GstDirectSoundSink) :=
  {| pDS := p; pDSBSecondary := pDSBSecondary s;
     buffer_size := buffer_size s;
     current_circular_offset := current_circular_offset s;
     bytes_per_sample := bytes_per_sample s; attenuation := attenuation s;
     first_buffer_after_reset := first_buffer_after_reset s |}.

Definition set_pDSBSecondary (p : LPVOID) (s : GstDirectSoundSink) :=
  {| pDS := pDS s; pDSBSecondary := p; buffer_size := buffer_size s;
     current_circular_offset := current_circular_offset s;
     bytes_per_sample := bytes_per_sample s; attenuation := attenuation s;
     first_buffer_after_reset := first_buffer_after_reset s |}.

Definition set_buffer_size (n : guint) (s : GstDirectSoundSink) :=
  {| pDS := pDS s; pDSBSecondary := pDSBSecondary s; buffer_size := n;
     current_circular_offset := current_circular_offset s;
     bytes_per_sample := bytes_per_sample s; attenuation := attenuation s;
     first_buffer_after_reset := first_buffer_after_reset s |}.

Definition set_current_circular_offset (n : guint) (s : GstDirectSoundSink) :=
  {| pDS := pDS s; pDSBSecondary := pDSBSecondary s;
     buffer_size := buffer_size s; current_circular_offset := n;
     bytes_per_sample := bytes_per_sample s; attenuation := attenuation s;
     first_buffer_after_reset := first_buffer_after_reset s |}.

Definition set_bytes_per_sample (n : guint) (s : GstDirectSoundSink) :=
  {| pDS := pDS s; pDSBSecondary := pDSBSecondary s;
     buffer_size := buffer_size s;
     current_circular_offset := current_circular_offset s;
     bytes_per_sample := n; attenuation := attenuation s;
     first_buffer_after_reset := first_buffer_after_reset s |}.

Definition set_first_buffer_after_reset (b : bool) (s : GstDirectSoundSink) :=
  {| pDS := pDS s; pDSBSecondary := pDSBSecondary s;
     buffer_size := buffer_size s;
     current_circular_offset := current_circular_offset s;
     bytes_per_sample := bytes_per_sample s; attenuation := attenuation s;
     first_buffer_after_reset := b |}.

Definition set_attenuation (a : Z) (s : GstDirectSoundSink) :=
  {| pDS := pDS s; pDSBSecondary := pDSBSecondary s;
     buffer_size := buffer_size s;
     current_circular_offset := current_circular_offset s;
     bytes_per_sample := bytes_per_sample s; attenuation := a;
     first_buffer_after_reset := first_buffer_after_reset s |}.

(** [gst_directsound_sink_init]; GObject hands out zeroed instances, so
    the fields it does not assign are 0. *)
Definition gst_directsound_sink_init : GstDirectSoundSink :=
  {| pDS := NULL; pDSBSecondary := NULL; buffer_size := DSBSIZE_MIN;
     current_circular_offset := 0; bytes_per_sample := 0; attenuation := 0;
     first_buffer_after_reset := false |}.

(** ** Outcomes and the monad *)

Inductive Fault := NullDereference | DivisionByZero.

Inductive Outcome (X : Type) :=
| Done (x : X)
| Crash (why : Fault)
| OutOfFuel.

Arguments Done {X}.
Arguments Crash {X}.
Arguments OutOfFuel {X}.

(** The property ids of the element. *)
Definition PROP_0 : guint := 0.
Definition PROP_ATTENUATION : guint := 1.

(** The entry points that [class_init] installs: the audio-sink methods
    and the two property accessors, with their arguments. *)
Inductive Operation :=
| OpOpen
| OpClose
| OpPrepare (spec : GstRingBufferSpec)
| OpUnprepare
| OpWrite (fuel : nat) (data : LPVOID) (length : guint)
| OpDelay
| OpReset
| OpSetProperty (prop_id : guint) (value : Z)
| OpGetProperty (prop_id : guint).

(** How the polling loop of [write] is left. *)
Inductive PollExit :=
| Proceed (dwStatus : DWORD)
| Abandon.

Section Sink.

Context {HW : Type} (api : DirectSound HW).

Record World := {
  sink : GstDirectSoundSink;
  device : HW;
  memory : Memory;
  calls : list Call
}.

Definition M (A : Type) := World -> Outcome (A * World).

Definition ret {A} (a : A) : M A := fun w => Done (a, w).

Definition bind {A B} (c : M A) (k : A -> M B) : M B :=
  fun w => match c w with
           | Done (a, w') => k a w'
           | Crash f => Crash f
           | OutOfFuel => OutOfFuel
           end.

Notation "x <- c ;; k" := (bind c (fun x => k))
  (at level 61, c at next level, right associativity).
Notation "' p <- c ;; k" := (bind c (fun x => let 'p := x in k))
  (at level 61, p pattern, c at next level, right associativity).
Notation "c ;; k" := (bind c (fun _ => k))
  (at level 61, right associativity).

Definition crash {A} (f : Fault) : M A := fun _ => Crash f.
Definition out_of_fuel {A} : M A := fun _ => OutOfFuel.

Definition get_sink : M GstDirectSoundSink := fun w => Done (sink w, w).

Definition modify_sink (f : GstDirectSoundSink -> GstDirectSoundSink)
  : M unit :=
  fun w => Done (tt, {| sink := f (sink w); device := device w;
                        memory := memory w; calls := calls w |}).

Definition modify_memory (ev : Call) (f : Memory -> Memory) : M unit :=
  fun w => Done (tt, {| sink := sink w; device := device w;
                        memory := f (memory w); calls := ev :: calls w |}).

(** A call into the device, logged. *)
Definition device_call {A} (f : HW -> A * HW) (ev : A -> Call) : M A :=
  fun w => let '(a, h) := f (device w) in
           Done (a, {| sink := sink w; device := h;
                       memory := memory w; calls := ev a :: calls w |}).

(** The [IDirectSoundBuffer_*] macros call through
    [dsoundsink->pDSBSecondary->lpVtbl]. *)
Definition through_pDSBSecondary {A} (c : M A) : M A :=
  fun w => if is_null (pDSBSecondary (sink w))
           then Crash NullDereference else c w.

Definition IDirectSoundBuffer_GetStatus : M (HRESULT * DWORD) :=
  through_pDSBSecondary
    (device_call (fun h => let '((hr, st), h') := GetStatus api h in
                           ((hr, u32 st), h'))
                 (fun r => CallGetStatus (fst r) (snd r))).

Definition IDirectSoundBuffer_GetCurrentPosition : M (HRESULT * DWORD) :=
  through_pDSBSecondary
    (device_call (fun h => let '((hr, pos), h') := GetCurrentPosition api h in
                           ((hr, u32 pos), h'))
                 (fun r => CallGetCurrentPosition (fst r) (snd r))).

Definition IDirectSoundBuffer_Restore : M HRESULT :=
  through_pDSBSecondary (device_call (Restore api) CallRestore).

Definition IDirectSoundBuffer_Lock (offset bytes : DWORD) (second : bool)
  : M (HRESULT * LockedRegions) :=
  through_pDSBSecondary
    (device_call
       (fun h => let '((hr, r), h') := Lock api offset bytes second h in
                 ((hr, {| pLockedBuffer1 := pLockedBuffer1 r;
                          dwSizeBuffer1 := u32 (dwSizeBuffer1 r);
                          pLockedBuffer2 := pLockedBuffer2 r;
                          dwSizeBuffer2 := u32 (dwSizeBuffer2 r) |}), h'))
       (fun r => CallLock offset bytes (fst r) (snd r))).

Definition IDirectSoundBuffer_Unlock (r : LockedRegions) : M HRESULT :=
  through_pDSBSecondary (device_call (Unlock api r) (CallUnlock r)).

Definition IDirectSoundBuffer_Play (flags : DWORD) : M HRESULT :=
  through_pDSBSecondary (device_call (Play api flags) (CallPlay flags)).

Definition IDirectSoundBuffer_Stop : M HRESULT :=
  through_pDSBSecondary (device_call (Stop api) CallStop).

Definition IDirectSoundBuffer_SetCurrentPosition (pos : DWORD) : M HRESULT :=
  through_pDSBSecondary
    (device_call (SetCurrentPosition api pos) (CallSetCurrentPosition pos)).

Definition IDirectSoundBuffer_SetVolume (level : Z) : M HRESULT :=
  through_pDSBSecondary
    (device_call (SetVolume api level) (CallSetVolume level)).

Definition IDirectSoundBuffer_Release : M unit :=
  through_pDSBSecondary
    (device_call (fun h => (tt, Release api h)) (fun _ => CallRelease)).

Definition do_Sleep (ms : Z) : M unit :=
  device_call (fun h => (tt, Sleep api ms h)) (fun _ => CallSleep ms).

Definition do_memcpy (dst src n : Z) : M unit :=
  modify_memory (CallMemcpy dst src n) (memcpy dst src n).

Definition do_memset (dst : Z) (c : Byte.byte) (n : Z) : M unit :=
  modify_memory (CallMemset dst n) (memset dst c n).

(** The [IDirectSound_*] macros call through [dsoundsink->pDS->lpVtbl]. *)
Definition through_pDS {A} (c : M A) : M A :=
  fun w => if is_null (pDS (sink w)) then Crash NullDereference else c w.

Definition IDirectSound_SetCooperativeLevel : M HRESULT :=
  through_pDS (device_call (SetCooperativeLevel api) CallSetCooperativeLevel).

Definition IDirectSound_CreateSoundBuffer (desc : DSBUFFERDESC)
  : M (HRESULT * LPVOID) :=
  through_pDS
    (device_call (CreateSoundBuffer api desc)
                 (fun r => CallCreateSoundBuffer desc (fst r))).

Definition IDirectSound_Release : M unit :=
  through_pDS
    (device_call (fun h => (tt, ReleaseDirectSound api h))
                 (fun _ => CallReleaseDirectSound)).

(** ** The operations of the element *)

(** [gst_directsound_sink_open]. *)
Definition gst_directsound_sink_open : M bool :=
  '(hRes, p) <- device_call (DirectSoundCreate api)
                            (fun r => CallDirectSoundCreate (fst r)) ;;
  modify_sink (set_pDS p) ;;
  if FAILED hRes then ret false
  else
    hRes <- IDirectSound_SetCooperativeLevel ;;
    if FAILED hRes then ret false else ret true.

(** [gst_directsound_sink_close]. *)
Definition gst_directsound_sink_close : M bool :=
  s <- get_sink ;;
  if is_null (pDS s) then ret false
  else IDirectSound_Release ;; ret true.

(** The WAVEFORMATEX that [prepare] fills from the ring-buffer spec.
    [wBitsPerSample] is an [int] division, [nAvgBytesPerSec] a DWORD
    product. *)
Definition fill_WAVEFORMATEX (spec : GstRingBufferSpec) : WAVEFORMATEX :=
  let wfx_nChannels := u16 (channels spec) in
  let wfx_nSamplesPerSec := u32 (rate spec) in
  let wfx_nBlockAlign := u16 (spec_bytes_per_sample spec) in
  {| wFormatTag := WAVE_FORMAT_PCM;
     nChannels := wfx_nChannels;
     nSamplesPerSec := wfx_nSamplesPerSec;
     nAvgBytesPerSec := u32 (wfx_nSamplesPerSec * wfx_nBlockAlign);
     nBlockAlign := wfx_nBlockAlign;
     wBitsPerSample :=
       u16 (Z.quot (s32 (spec_bytes_per_sample spec * 8)) wfx_nChannels);
     cbSize := 18 |}.

(** [gst_directsound_sink_prepare]. *)
Definition gst_directsound_sink_prepare (spec : GstRingBufferSpec) : M bool :=
  (* save number of bytes per sample *)
  modify_sink (set_bytes_per_sample (u32 (spec_bytes_per_sample spec))) ;;
  if u16 (channels spec) =? 0 then crash DivisionByZero
  else
    let wfx := fill_WAVEFORMATEX spec in
    (* directsound buffer size can handle 1/2 sec of the stream *)
    modify_sink (set_buffer_size (nAvgBytesPerSec wfx / 2)) ;;
    s <- get_sink ;;
    let descSecondary :=
      {| dwFlags := Z.lor DSBCAPS_GETCURRENTPOSITION2
                          (Z.lor DSBCAPS_GLOBALFOCUS DSBCAPS_CTRLVOLUME);
         dwBufferBytes := buffer_size s;
         lpwfxFormat := wfx |} in
    '(hRes, p) <- IDirectSound_CreateSoundBuffer descSecondary ;;
    modify_sink (set_pDSBSecondary p) ;;
    if FAILED hRes then ret false
    else
      s <- get_sink ;;
      (if attenuation s =? 0 then ret tt
       else _ <- IDirectSoundBuffer_SetVolume (attenuation s) ;; ret tt) ;;
      ret true.

(** [gst_directsound_sink_unprepare]: the pointer is released, not
    cleared. *)
Definition gst_directsound_sink_unprepare : M bool :=
  s <- get_sink ;;
  (if is_null (pDSBSecondary s) then ret tt else IDirectSoundBuffer_Release) ;;
  ret true.

(** The free size of the circular buffer, as computed under the label
    [calculate_freesize], in DWORD arithmetic. *)
Definition dwFreeBufferSize (s : GstDirectSoundSink)
  (dwCurrentPlayCursor : DWORD) : DWORD :=
  if dwCurrentPlayCursor <? current_circular_offset s
  then u32 (buffer_size s
            - u32 (current_circular_offset s - dwCurrentPlayCursor))
  else u32 (dwCurrentPlayCursor - current_circular_offset s).

(** One retry of the polling loop: sleep, then re-read the play cursor
    and the status.  The HRESULT kept is that of [GetStatus]. *)
Definition sleep_and_reread : M (DWORD * HRESULT * DWORD) :=
  do_Sleep 100 ;;
  '(_, dwCurrentPlayCursor) <- IDirectSoundBuffer_GetCurrentPosition ;;
  '(hRes, dwStatus) <- IDirectSoundBuffer_GetStatus ;;
  ret (dwCurrentPlayCursor, hRes, dwStatus).

(** The loop made of the label [calculate_freesize] and its [goto]. *)
Fixpoint calculate_freesize (fuel : nat) (length : guint)
  (dwCurrentPlayCursor dwStatus : DWORD) : M PollExit :=
  match fuel with
  | O => out_of_fuel
  | S fuel' =>
      s <- get_sink ;;
      if length >=? dwFreeBufferSize s dwCurrentPlayCursor then
        '(dwCurrentPlayCursor', hRes, dwStatus') <- sleep_and_reread ;;
        if SUCCEEDED hRes && has_flag dwStatus' DSBSTATUS_PLAYING
        then calculate_freesize fuel' length dwCurrentPlayCursor' dwStatus'
        else
          modify_sink (set_first_buffer_after_reset false) ;;
          ret Abandon
      else ret (Proceed dwStatus)
  end.

(** The first two calls of [write].  The HRESULT kept is that of
    [GetCurrentPosition]. *)
Definition read_status_and_cursor : M (DWORD * HRESULT * DWORD) :=
  '(_, dwStatus) <- IDirectSoundBuffer_GetStatus ;;
  '(hRes, dwCurrentPlayCursor) <- IDirectSoundBuffer_GetCurrentPosition ;;
  ret (dwStatus, hRes, dwCurrentPlayCursor).

(** Recovery of a lost buffer. *)
Definition restore_if_lost (dwStatus : DWORD) : M unit :=
  if has_flag dwStatus DSBSTATUS_BUFFERLOST then
    _ <- IDirectSoundBuffer_Restore ;;
    modify_sink (set_current_circular_offset 0)
  else ret tt.

(** Lock, copy without reordering, advance the offset, unlock. *)
Definition lock_and_copy (data : LPVOID) (length : guint) : M unit :=
  s <- get_sink ;;
  '(hRes, r) <- IDirectSoundBuffer_Lock (current_circular_offset s) length true ;;
  if SUCCEEDED hRes then
    do_memcpy (pLockedBuffer1 r) data (dwSizeBuffer1 r) ;;
    (if is_null (pLockedBuffer2 r) then ret tt
     else do_memcpy (pLockedBuffer2 r) (data + dwSizeBuffer1 r)
                    (dwSizeBuffer2 r)) ;;
    (* update where the buffer will lock (for next time) *)
    modify_sink (fun s =>
      set_current_circular_offset
        (u32 (current_circular_offset s
              + u32 (dwSizeBuffer1 r + dwSizeBuffer2 r))) s) ;;
    s <- get_sink ;;
    (if buffer_size s =? 0 then crash DivisionByZero
     else modify_sink (set_current_circular_offset
                         (current_circular_offset s mod buffer_size s))) ;;
    _ <- IDirectSoundBuffer_Unlock r ;;
    ret tt
  else ret tt.

(** Call play unless the buffer plays already or this is the first
    buffer after a reset; then clear the flag. *)
Definition play_if_needed (dwStatus : DWORD) : M unit :=
  s <- get_sink ;;
  (if negb (has_flag dwStatus DSBSTATUS_PLAYING)
      && negb (first_buffer_after_reset s)
   then _ <- IDirectSoundBuffer_Play DSBPLAY_LOOPING ;; ret tt
   else ret tt) ;;
  modify_sink (set_first_buffer_after_reset false).

(** [gst_directsound_sink_write] from the test of BUFFERLOST on. *)
Definition write_after_poll (data : LPVOID) (length : guint)
  (dwStatus : DWORD) : M guint :=
  restore_if_lost dwStatus ;;
  lock_and_copy data length ;;
  play_if_needed dwStatus ;;
  ret length.

(** [gst_directsound_sink_write] up to the end of the blocking check:
    the two reads and, when the buffer plays, the polling loop. *)
Definition wait_for_free_space (fuel : nat) (length : guint) : M PollExit :=
  '(dwStatus, hRes, dwCurrentPlayCursor) <- read_status_and_cursor ;;
  if SUCCEEDED hRes && has_flag dwStatus DSBSTATUS_PLAYING
  then calculate_freesize fuel length dwCurrentPlayCursor dwStatus
  else ret (Proceed dwStatus).

(** [gst_directsound_sink_write]. *)
Definition gst_directsound_sink_write (fuel : nat) (data : LPVOID)
  (length : guint) : M guint :=
  exit <- wait_for_free_space fuel length ;;
  match exit with
  | Abandon => ret 0
  | Proceed dwStatus => write_after_poll data length dwStatus
  end.

(** The bytes in queue as [delay] computes them, in DWORD arithmetic. *)
Definition dwBytesInQueue (s : GstDirectSoundSink)
  (dwCurrentPlayCursor : DWORD) : DWORD :=
  if dwCurrentPlayCursor <? current_circular_offset s
  then u32 (current_circular_offset s - dwCurrentPlayCursor)
  else u32 (current_circular_offset s
            + u32 (buffer_size s - dwCurrentPlayCursor)).

(** [gst_directsound_sink_delay]: the count is kept in a [gint] and
    returned as a [guint]. *)
Definition gst_directsound_sink_delay : M guint :=
  '(_, dwStatus) <- IDirectSoundBuffer_GetStatus ;;
  if has_flag dwStatus DSBSTATUS_PLAYING then
    '(hRes, dwCurrentPlayCursor) <- IDirectSoundBuffer_GetCurrentPosition ;;
    if hRes =? S_OK then
      s <- get_sink ;;
      if bytes_per_sample s =? 0 then crash DivisionByZero
      else
        let nNbSamplesInQueue :=
          s32 (dwBytesInQueue s dwCurrentPlayCursor / bytes_per_sample s) in
        ret (u32 nNbSamplesInQueue)
    else ret 0
  else ret 0.

(** [gst_directsound_sink_reset]. *)
Definition gst_directsound_sink_reset : M unit :=
  s <- get_sink ;;
  (if is_null (pDSBSecondary s) then ret tt
   else
     (* stop playing *)
     _ <- IDirectSoundBuffer_Stop ;;
     (* reset position *)
     _ <- IDirectSoundBuffer_SetCurrentPosition 0 ;;
     modify_sink (set_current_circular_offset 0) ;;
     (* reset the buffer *)
     s <- get_sink ;;
     '(hRes, r) <- IDirectSoundBuffer_Lock (current_circular_offset s)
                                           (buffer_size s) false ;;
     if SUCCEEDED hRes then
       do_memset (pLockedBuffer1 r) Byte.x00 (dwSizeBuffer1 r) ;;
       _ <- IDirectSoundBuffer_Unlock
              {| pLockedBuffer1 := pLockedBuffer1 r;
                 dwSizeBuffer1 := dwSizeBuffer1 r;
                 pLockedBuffer2 := NULL; dwSizeBuffer2 := 0 |} ;;
       ret tt
     else ret tt) ;;
  modify_sink (set_first_buffer_after_reset true).

(** ** Vocabulary of the statements *)

(** The memory after the copies of [write]. *)
Definition copied (data : LPVOID) (r : LockedRegions) (m : Memory) : Memory :=
  let m1 := memcpy (pLockedBuffer1 r) data (dwSizeBuffer1 r) m in
  if is_null (pLockedBuffer2 r) then m1
  else memcpy (pLockedBuffer2 r) (data + dwSizeBuffer1 r)
              (dwSizeBuffer2 r) m1.

(** The calls that only observe the device or wait. *)
Definition is_query (c : Call) : bool :=
  match c with
  | CallGetStatus _ _ | CallGetCurrentPosition _ _ | CallSleep _ => true
  | _ => false
  end.

Definition is_play (c : Call) : bool :=
  match c with
  | CallPlay _ _ => true
  | _ => false
  end.

(** A device that reports success from [CreateSoundBuffer] hands out a
    buffer. *)
Definition creates_buffers : Prop :=
  forall desc h hRes p h',
    CreateSoundBuffer api desc h = ((hRes, p), h') ->
    FAILED hRes = false -> p <> NULL.

(** The polling loop, entered with this cursor in this world, finds no
    room for [length] bytes and a playing buffer [n] times, and at the
    next retry finds no room and a re-read that does not report a
    playing buffer. *)
Fixpoint stops_after (n : nat) (length : guint) (cursor : DWORD)
  (w : World) : bool :=
  (length >=? dwFreeBufferSize (sink w) cursor)
  && match sleep_and_reread w with
     | Done ((cursor', hRes, dwStatus), w') =>
         let again := SUCCEEDED hRes && has_flag dwStatus DSBSTATUS_PLAYING in
         match n with
         | O => negb again
         | S m => again && stops_after m length cursor' w'
         end
     | _ => false
     end.


(** The write offset lies in the buffer. *)
Definition offset_in_range (s : GstDirectSoundSink) : Prop :=
  0 <= current_circular_offset s < buffer_size s.

(** Two address ranges that do not meet. *)
Definition apart (p n q m : Z) : Prop := p + n <= q \/ q + m <= p.

(** The free space as the write path is specified. *)
Definition free_bytes (s : GstDirectSoundSink) (cursor : DWORD) : Z :=
  if cursor <? current_circular_offset s
  then buffer_size s - (current_circular_offset s - cursor)
  else cursor - current_circular_offset s.

(** The queued bytes as the delay query is specified. *)
Definition queued_bytes (s : GstDirectSoundSink) (cursor : DWORD) : Z :=
  if cursor <? current_circular_offset s
  then current_circular_offset s - cursor
  else current_circular_offset s + (buffer_size s - cursor).

(** ** The property accessors and the method table *)

(** [gst_directsound_sink_set_property]; an unknown id only draws a
    warning. *)
Definition gst_directsound_sink_set_property (prop_id : guint) (value : Z)
  : M unit :=
  if prop_id =? PROP_ATTENUATION then
    s <- get_sink ;;
    if value =? attenuation s then ret tt
    else
      modify_sink (set_attenuation value) ;;
      s <- get_sink ;;
      if is_null (pDSBSecondary s) then ret tt
      else _ <- IDirectSoundBuffer_SetVolume (attenuation s) ;; ret tt
  else ret tt.

(** [gst_directsound_sink_get_property]: what is stored in the GValue,
    nothing for an unknown id. *)
Definition gst_directsound_sink_get_property (prop_id : guint)
  : M (option Z) :=
  if prop_id =? PROP_ATTENUATION then
    s <- get_sink ;; ret (Some (attenuation s))
  else ret None.

(** One call through the method table, its result dropped. *)
Definition perform (op : Operation) : M unit :=
  match op with
  | OpOpen => _ <- gst_directsound_sink_open ;; ret tt
  | OpClose => _ <- gst_directsound_sink_close ;; ret tt
  | OpPrepare spec => _ <- gst_directsound_sink_prepare spec ;; ret tt
  | OpUnprepare => _ <- gst_directsound_sink_unprepare ;; ret tt
  | OpWrite fuel data length =>
      _ <- gst_directsound_sink_write fuel data length ;; ret tt
  | OpDelay => _ <- gst_directsound_sink_delay ;; ret tt
  | OpReset => gst_directsound_sink_reset
  | OpSetProperty prop_id value =>
      gst_directsound_sink_set_property prop_id value
  | OpGetProperty prop_id =>
      _ <- gst_directsound_sink_get_property prop_id ;; ret tt
  end.

(** The worlds an element can be in: it starts from
    [gst_directsound_sink_init], its methods are called in any order
    with any arguments, and between two calls the sound card and the
    rest of the process do as they please. *)
Inductive reachable : World -> Prop :=
| reachable_init h m :
    reachable {| sink := gst_directsound_sink_init; device := h;
                 memory := m; calls := [] |}
| reachable_call w op w' :
    reachable w -> perform op w = Done (tt, w') -> reachable w'
| reachable_outside w h m :
    reachable w ->
    reachable {| sink := sink w; device := h; memory := m;
                 calls := calls w |}.

(** A sequence of calls, as far as each returns. *)
Fixpoint perform_all (ops : list Operation) (w : World) : option World :=
  match ops with
  | [] => Some w
  | op :: rest =>
      match perform op w with
      | Done (_, w') => perform_all rest w'
      | _ => None
      end
  end.

(** The sizes of the element as 32-bit quantities, the capacity in the
    lower half. *)
Definition sizes_fit (s : GstDirectSoundSink) : Prop :=
  0 <= buffer_size s < 2 ^ 31
  /\ 0 <= current_circular_offset s < 2 ^ 32
  /\ 0 <= bytes_per_sample s < 2 ^ 32.

(** What an audio-sink method leaves alone: the two interface pointers,
    the capacity, the frame size and the attenuation. *)
Definition same_configuration (s s' : GstDirectSoundSink) : Prop :=
  pDS s' = pDS s
  /\ pDSBSecondary s' = pDSBSecondary s
  /\ buffer_size s' = buffer_size s
  /\ bytes_per_sample s' = bytes_per_sample s
  /\ attenuation s' = attenuation s.

(** The polling loop, entered with this cursor in this world, finds no
    room for [length] bytes and a playing buffer at each of its first
    [n] retries. *)
Fixpoint blocked_for (n : nat) (length : guint) (cursor : DWORD)
  (w : World) : bool :=
  match n with
  | O => true
  | S m =>
      (length >=? dwFreeBufferSize (sink w) cursor)
      && match sleep_and_reread w with
         | Done ((cursor', hRes, dwStatus), w') =>
             SUCCEEDED hRes && has_flag dwStatus DSBSTATUS_PLAYING
             && blocked_for m length cursor' w'
         | _ => false
         end
  end.

(** A device whose play cursor never leaves a buffer of [capacity]
    bytes. *)
Definition cursor_within (capacity : Z) : Prop :=
  forall h hRes pos h',
    GetCurrentPosition api h = ((hRes, pos), h') -> 0 <= pos <= capacity.

End Sink.

Arguments World : clear implicits.
Arguments M : clear implicits.

(** ** A scripted device

    A small stand-in for the sound card, used to run the element on
    concrete inputs.  The buffer memory sits at address [t_base]; a lock
    that runs past the end of the buffer comes back as two regions. *)
Module TestDevice.

Record HW := {
  t_status : DWORD;
  t_cursor : DWORD;
  t_capacity : Z;
  t_base : Z;
  t_drain : Z;          (* bytes played during one Sleep *)
  t_stops_in : nat;     (* playback stops at the n-th Sleep (0: never) *)
  t_lock_fails : bool;
  t_stop_fails : bool;
  t_create_fails : bool;
  t_cursor_hr : HRESULT (* what GetCurrentPosition returns *)
}.

Definition E_FAIL : HRESULT := -2147467259.

Definition with_status (st : DWORD) (h : HW) : HW :=
  {| t_status := st; t_cursor := t_cursor h; t_capacity := t_capacity h;
     t_base := t_base h; t_drain := t_drain h; t_stops_in := t_stops_in h;
     t_lock_fails := t_lock_fails h; t_stop_fails := t_stop_fails h;
     t_create_fails := t_create_fails h; t_cursor_hr := t_cursor_hr h |}.

Definition with_cursor (c : DWORD) (h : HW) : HW :=
  {| t_status := t_status h; t_cursor := c; t_capacity := t_capacity h;
     t_base := t_base h; t_drain := t_drain h; t_stops_in := t_stops_in h;
     t_lock_fails := t_lock_fails h; t_stop_fails := t_stop_fails h;
     t_create_fails := t_create_fails h; t_cursor_hr := t_cursor_hr h |}.

Definition with_capacity (c : Z) (h : HW) : HW :=
  {| t_status := t_status h; t_cursor := t_cursor h; t_capacity := c;
     t_base := t_base h; t_drain := t_drain h; t_stops_in := t_stops_in h;
     t_lock_fails := t_lock_fails h; t_stop_fails := t_stop_fails h;
     t_create_fails := t_create_fails h; t_cursor_hr := t_cursor_hr h |}.

Definition with_stops_in (n : nat) (h : HW) : HW :=
  {| t_status := t_status h; t_cursor := t_cursor h;
     t_capacity := t_capacity h;
     t_base := t_base h; t_drain := t_drain h; t_stops_in := n;
     t_lock_fails := t_lock_fails h; t_stop_fails := t_stop_fails h;
     t_create_fails := t_create_fails h; t_cursor_hr := t_cursor_hr h |}.

Definition playing (h : HW) : bool := has_flag (t_status h) DSBSTATUS_PLAYING.

Definition sleep (h : HW) : HW :=
  let h1 :=
    if playing h && negb (t_capacity h =? 0)
    then with_cursor ((t_cursor h + t_drain h) mod t_capacity h) h else h in
  match t_stops_in h1 with
  | O => h1
  | S O => with_stops_in 0
             (with_status (Z.land (t_status h1) (Z.lnot DSBSTATUS_PLAYING)) h1)
  | S n => with_stops_in n h1
  end.

Definition lock (offset bytes : DWORD) (h : HW) : HRESULT * LockedRegions :=
  if t_lock_fails h then
    (E_FAIL, {| pLockedBuffer1 := NULL; dwSizeBuffer1 := 0;
                pLockedBuffer2 := NULL; dwSizeBuffer2 := 0 |})
  else if offset + bytes <=? t_capacity h then
    (S_OK, {| pLockedBuffer1 := t_base h + offset; dwSizeBuffer1 := bytes;
              pLockedBuffer2 := NULL; dwSizeBuffer2 := 0 |})
  else
    (S_OK, {| pLockedBuffer1 := t_base h + offset;
              dwSizeBuffer1 := t_capacity h - offset;
              pLockedBuffer2 := t_base h;
              dwSizeBuffer2 := bytes - (t_capacity h - offset) |}).

Definition api : DirectSound HW :=
  {| DirectSoundCreate := fun h => ((S_OK, 2048), h);
     SetCooperativeLevel := fun h => (S_OK, h);
     ReleaseDirectSound := fun h => h;
     CreateSoundBuffer := fun desc h =>
       if t_create_fails h then ((E_FAIL, NULL), h)
       else ((S_OK, 4096), with_capacity (dwBufferBytes desc) h);
     Release := fun h => h;
     SetVolume := fun _ h => (S_OK, h);
     GetStatus := fun h => ((S_OK, t_status h), h);
     GetCurrentPosition := fun h => ((t_cursor_hr h, t_cursor h), h);
     Restore := fun h =>
       (S_OK, with_status (Z.land (t_status h)
                                  (Z.lnot DSBSTATUS_BUFFERLOST)) h);
     Lock := fun offset bytes _ h => (lock offset bytes h, h);
     Unlock := fun _ h => (S_OK, h);
     Play := fun _ h =>
       (S_OK, with_status (Z.lor (t_status h) DSBSTATUS_PLAYING) h);
     Stop := fun h =>
       if t_stop_fails h then (E_FAIL, h)
       else (S_OK, with_status (Z.land (t_status h)
                                       (Z.lnot DSBSTATUS_PLAYING)) h);
     SetCurrentPosition := fun pos h => (S_OK, with_cursor pos h);
     Sleep := fun _ h => sleep h |}.

(** A device at rest: a buffer of [capacity] bytes at address 65536. *)
Definition idle (capacity : Z) : HW :=
  {| t_status := 0; t_cursor := 0; t_capacity := capacity; t_base := 65536;
     t_drain := 0; t_stops_in := 0; t_lock_fails := false;
     t_stop_fails := false; t_create_fails := false; t_cursor_hr := S_OK |}.

(** The byte at address [a] is [a mod 256]: distinct neighbours. *)
Definition ramp : Memory :=
  fun a => match Byte.of_N (Z.to_N (a mod 256)) with
           | Some b => b
           | None => Byte.x00
           end.

Definition world (s : GstDirectSoundSink) (h : HW) : World HW :=
  {| sink := s; device := h; memory := ramp; calls := [] |}.

(** A prepared session: stereo, 16 bit, 44100 Hz. *)
Definition session (offset : guint) (first : bool) : GstDirectSoundSink :=
  {| pDS := 2048; pDSBSecondary := 4096; buffer_size := 88200;
     current_circular_offset := offset; bytes_per_sample := 4;
     attenuation := 0; first_buffer_after_reset := first |}.

(** The same element before any buffer was created. *)
Definition unprepared (offset : guint) : GstDirectSoundSink :=
  {| pDS := 2048; pDSBSecondary := NULL; buffer_size := 88200;
     current_circular_offset := offset; bytes_per_sample := 4;
     attenuation := 0; first_buffer_after_reset := false |}.

Definition with_lock_failing (h : HW) : HW :=
  {| t_status := t_status h; t_cursor := t_cursor h;
     t_capacity := t_capacity h;
     t_base := t_base h; t_drain := t_drain h; t_stops_in := t_stops_in h;
     t_lock_fails := true; t_stop_fails := t_stop_fails h;
     t_create_fails := t_create_fails h; t_cursor_hr := t_cursor_hr h |}.

Definition with_stop_failing (h : HW) : HW :=
  {| t_status := t_status h; t_cursor := t_cursor h;
     t_capacity := t_capacity h;
     t_base := t_base h; t_drain := t_drain h; t_stops_in := t_stops_in h;
     t_lock_fails := t_lock_fails h; t_stop_fails := true;
     t_create_fails := t_create_fails h; t_cursor_hr := t_cursor_hr h |}.

Definition with_create_failing (h : HW) : HW :=
  {| t_status := t_status h; t_cursor := t_cursor h;
     t_capacity := t_capacity h;
     t_base := t_base h; t_drain := t_drain h; t_stops_in := t_stops_in h;
     t_lock_fails := t_lock_fails h; t_stop_fails := t_stop_fails h;
     t_create_fails := true; t_cursor_hr := t_cursor_hr h |}.

(** The stereo 16-bit format at 44100 Hz, and at 2^30 Hz. *)
Definition cd_quality : GstRingBufferSpec :=
  {| channels := 2; rate := 44100; spec_bytes_per_sample := 4 |}.

Definition gigahertz : GstRingBufferSpec :=
  {| channels := 2; rate := 1073741824; spec_bytes_per_sample := 4 |}.

(** Worlds to run the element in.  The input of a write is at address
    1000. *)

(* not playing, the write offset 2200 bytes before the end of the buffer *)
Definition near_the_end : World HW :=
  world (session 86000 false) (idle 88200).

(* not playing, the lock fails *)
Definition lock_refused : World HW :=
  world (session 1000 false) (with_lock_failing (idle 88200)).

(* buffer lost, the lock fails *)
Definition lost_and_lock_refused : World HW :=
  world (session 1000 false)
        (with_lock_failing (with_status DSBSTATUS_BUFFERLOST (idle 88200))).

(* playing, the play cursor at 0 and the write offset at 100 *)
Definition playing_with_room : World HW :=
  world (session 100 false) (with_status DSBSTATUS_PLAYING (idle 88200)).

(* playing, no room (cursor = write offset), playback stops during the
   second sleep; this is the first write after a reset *)
Definition full_then_stopped : World HW :=
  world (session 100 true)
        (with_stops_in 2
           (with_cursor 100 (with_status DSBSTATUS_PLAYING (idle 88200)))).

(* playing, the cursor at 1000 and the write offset at 4096 *)
Definition playing_with_queue : World HW :=
  world (session 4096 false)
        (with_cursor 1000 (with_status DSBSTATUS_PLAYING (idle 88200))).

(* playing, and Stop is refused *)
Definition cannot_stop : World HW :=
  world (session 4096 false)
        (with_stop_failing (with_status DSBSTATUS_PLAYING (idle 88200))).

(** The world an outcome leaves, when there is one. *)
Definition world_of {A} (o : Outcome (A * World HW)) : option (World HW) :=
  match o with
  | Done (_, w) => Some w
  | _ => None
  end.

Definition result_of {A} (o : Outcome (A * World HW)) : option A :=
  match o with
  | Done (a, _) => Some a
  | _ => None
  end.

Definition and_then_result {A} (o : option (World HW))
  (c : M HW A) : option A :=
  match o with
  | Some w => result_of (c w)
  | None => None
  end.

Definition and_then {A} (o : option (World HW))
  (c : M HW A) : option (World HW) :=
  match o with
  | Some w => world_of (c w)
  | None => None
  end.

Definition device_becomes (f : HW -> HW) (o : option (World HW))
  : option (World HW) :=
  match o with
  | Some w => Some {| sink := sink w; device := f (device w);
                      memory := memory w; calls := calls w |}
  | None => None
  end.

(** A session that is prepared, written to, unprepared, and then fails
    to be prepared again because the device refuses a new buffer. *)
Definition second_prepare_refused : option (World HW) :=
  let start := {| sink := gst_directsound_sink_init; device := idle 4;
                  memory := ramp; calls := [] |} in
  let o := world_of (gst_directsound_sink_open api start) in
  let o := and_then o (gst_directsound_sink_prepare api cd_quality) in
  let o := and_then o (gst_directsound_sink_write api 1 1000 4096) in
  let o := and_then o (gst_directsound_sink_unprepare api) in
  let o := device_becomes with_create_failing o in
  and_then o (gst_directsound_sink_prepare api cd_quality).

(** More worlds, for the methods beside the write path. *)

(* an element just created, on a device that has no buffer yet; the
   memory all zero *)
Definition fresh : World HW :=
  {| sink := gst_directsound_sink_init; device := idle 4;
     memory := fun _ => Byte.x00; calls := [] |}.

(* opened, no buffer yet *)
Definition opened : World HW := world (unprepared 0) (idle 4).

(* playing, no room (cursor = write offset), and the playback goes on
   without consuming anything *)
Definition full_and_static : World HW :=
  world (session 100 false)
        (with_cursor 100 (with_status DSBSTATUS_PLAYING (idle 88200))).

(* not playing, the buffer lost, the write offset at 1000 *)
Definition lost : World HW :=
  world (session 1000 false)
        (with_status DSBSTATUS_BUFFERLOST (idle 88200)).



(* 1 Hz, mono, 8 bit: a byte rate of 1 *)
Definition one_hertz_mono : GstRingBufferSpec :=
  {| channels := 1; rate := 1; spec_bytes_per_sample := 1 |}.

(** The scripted device with its play cursor kept within [capacity],
    whatever its state holds. *)
Definition clamped (capacity : Z) : DirectSound HW :=
  {| DirectSoundCreate := DirectSoundCreate api;
     SetCooperativeLevel := SetCooperativeLevel api;
     ReleaseDirectSound := ReleaseDirectSound api;
     CreateSoundBuffer := CreateSoundBuffer api;
     Release := Release api;
     SetVolume := SetVolume api;
     GetStatus := GetStatus api;
     GetCurrentPosition := fun h =>
       ((t_cursor_hr h, Z.max 0 (Z.min (t_cursor h) capacity)), h);
     Restore := Restore api;
     Lock := Lock api;
     Unlock := Unlock api;
     Play := Play api;
     Stop := Stop api;
     SetCurrentPosition := SetCurrentPosition api;
     Sleep := Sleep api |}.

End TestDevice.

(** ** Machine-integer facts *)

Lemma u32_range x : 0 <= u32 x < 2 ^ 32.
Proof. unfold u32. apply Z.mod_pos_bound. lia. Qed.

Lemma u32_small x : 0 <= x < 2 ^ 32 -> u32 x = x.
Proof. intros H. unfold u32. apply Z.mod_small. exact H. Qed.

Lemma s32_u32_roundtrip x : 0 <= x < 2 ^ 32 -> u32 (s32 x) = x.
Proof.
  intros H. unfold u32, s32.
  rewrite Zminus_mod_idemp_l.
  replace (x + 2 ^ 31 - 2 ^ 31) with x by lia.
  apply Z.mod_small. exact H.
Qed.

Lemma is_null_false p : p <> NULL -> is_null p = false.
Proof. intros H. unfold is_null. apply Z.eqb_neq. exact H. Qed.

(** ** Memory facts *)

Lemma memcpy_inside dst src n m a :
  dst <= a < dst + n -> memcpy dst src n m a = m (src + (a - dst)).
Proof.
  intros [H1 H2]. unfold memcpy.
  apply Z.leb_le in H1. apply Z.ltb_lt in H2. now rewrite H1, H2.
Qed.

Lemma memcpy_outside dst src n m a :
  a < dst \/ dst + n <= a -> memcpy dst src n m a = m a.
Proof.
  intros H. unfold memcpy.
  destruct (dst <=? a) eqn:E1; [|reflexivity].
  destruct (a <? dst + n) eqn:E2; [|reflexivity].
  apply Z.leb_le in E1. apply Z.ltb_lt in E2. lia.
Qed.

Lemma bytes_at_ext m m' p q n :
  (forall i, 0 <= i < Z.of_nat n -> m (p + i) = m' (q + i)) ->
  bytes_at m p n = bytes_at m' q n.
Proof.
  intros H. unfold bytes_at. apply map_ext_in.
  intros i Hi. apply in_seq in Hi. apply H. lia.
Qed.

Lemma map_seq_from {A} (f : nat -> A) a n :
  map f (seq a n) = map (fun i => f (a + i)%nat) (seq 0 n).
Proof.
  revert a f. induction n as [|n IH]; intros a f; [reflexivity|].
  simpl. rewrite Nat.add_0_r. f_equal.
  rewrite (IH (S a)), (IH 1%nat). apply map_ext.
  intros i. f_equal. lia.
Qed.

Lemma bytes_at_app m p n1 n2 :
  bytes_at m p (n1 + n2) =
  bytes_at m p n1 ++ bytes_at m (p + Z.of_nat n1) n2.
Proof.
  unfold bytes_at. rewrite seq_app, map_app. f_equal.
  rewrite map_seq_from. apply map_ext.
  intros i. f_equal. lia.
Qed.

Arguments u32 : simpl never.
Arguments u16 : simpl never.
Arguments s32 : simpl never.
Arguments has_flag : simpl never.
Arguments SUCCEEDED : simpl never.
Arguments FAILED : simpl never.
Arguments is_null : simpl never.
Arguments memcpy : simpl never.
Arguments memset : simpl never.
Arguments fill_WAVEFORMATEX : simpl never.
Arguments dwFreeBufferSize : simpl never.
Arguments dwBytesInQueue : simpl never.

(** Unfold the field updates and simplify. *)
Ltac simp_sink :=
  unfold set_pDS, set_pDSBSecondary, set_buffer_size,
    set_current_circular_offset, set_bytes_per_sample,
    set_first_buffer_after_reset in *;
  cbn in *.

Section SinkProofs.

Context {HW : Type} (api : DirectSound HW).

(** ** Running the primitive steps *)

Lemma through_pDSBSecondary_run {A} (c : M HW A) w :
  pDSBSecondary (sink w) <> NULL -> through_pDSBSecondary c w = c w.
Proof.
  intros H. unfold through_pDSBSecondary. now rewrite is_null_false.
Qed.

(** ** Buffer geometry computed by [prepare] *)

Lemma nAvgBytesPerSec_exact spec :
  0 <= rate spec ->
  0 <= spec_bytes_per_sample spec < 2 ^ 16 ->
  rate spec * spec_bytes_per_sample spec < 2 ^ 32 ->
  nAvgBytesPerSec (fill_WAVEFORMATEX spec)
  = rate spec * spec_bytes_per_sample spec.
Proof.
  intros Hr Hb Hfit. unfold fill_WAVEFORMATEX. cbn [nAvgBytesPerSec].
  assert (Hb' : u16 (spec_bytes_per_sample spec) = spec_bytes_per_sample spec)
    by (unfold u16; apply Z.mod_small; lia).
  rewrite Hb'.
  destruct (Z.eq_dec (spec_bytes_per_sample spec) 0) as [E|E].
  - rewrite E, !Z.mul_0_r. reflexivity.
  - assert (rate spec < 2 ^ 32) by nia.
    rewrite (u32_small (rate spec)) by lia.
    apply u32_small. nia.
Qed.

(** Whatever the format, the capacity [prepare] stores is below 2^31. *)
Lemma prepare_buffer_size_bound spec :
  0 <= nAvgBytesPerSec (fill_WAVEFORMATEX spec) / 2 < 2 ^ 31.
Proof.
  unfold fill_WAVEFORMATEX. cbn [nAvgBytesPerSec].
  pose proof (u32_range (u32 (rate spec) * u16 (spec_bytes_per_sample spec))).
  split.
  - apply Z.div_pos; lia.
  - apply Z.div_lt_upper_bound; lia.
Qed.

Lemma prepare_runs spec w :
  creates_buffers api ->
  pDS (sink w) <> NULL ->
  u16 (channels spec) <> 0 ->
  exists ok w',
    gst_directsound_sink_prepare api spec w = Done (ok, w')
    /\ buffer_size (sink w') = nAvgBytesPerSec (fill_WAVEFORMATEX spec) / 2
    /\ bytes_per_sample (sink w') = u32 (spec_bytes_per_sample spec)
    /\ current_circular_offset (sink w') = current_circular_offset (sink w).
Proof.
  intros Hdev HpDS Hch.
  unfold gst_directsound_sink_prepare, bind, modify_sink, get_sink, ret.
  cbn.
  apply Z.eqb_neq in Hch. rewrite Hch.
  unfold IDirectSound_CreateSoundBuffer, through_pDS, device_call.
  cbn.
  rewrite (is_null_false _ HpDS).
  destruct (CreateSoundBuffer api _ (device w)) as [[hRes p] h] eqn:Ecreate.
  simp_sink.
  destruct (FAILED hRes) eqn:Ehr.
  - eexists _, _. split; [reflexivity|]. cbn. auto.
  - simp_sink. destruct (attenuation (sink w) =? 0).
    + eexists _, _. split; [reflexivity|]. cbn. auto.
    + unfold IDirectSoundBuffer_SetVolume, through_pDSBSecondary, device_call.
      simp_sink.
      rewrite (is_null_false _ (Hdev _ _ _ _ _ Ecreate Ehr)).
      destruct (SetVolume api _ h) as [hr' h'].
      eexists _, _. split; [reflexivity|]. cbn. auto.
Qed.

(** ** What one step does to the world *)

Lemma through_pDSBSecondary_inv {A} (c : M HW A) w x :
  through_pDSBSecondary c w = Done x ->
  pDSBSecondary (sink w) <> NULL /\ c w = Done x.
Proof.
  unfold through_pDSBSecondary, is_null.
  destruct (pDSBSecondary (sink w) =? NULL) eqn:E; [discriminate|].
  apply Z.eqb_neq in E. auto.
Qed.

Lemma device_call_inv {A} (f : HW -> A * HW) ev w a w' :
  device_call f ev w = Done (a, w') ->
  sink w' = sink w /\ memory w' = memory w
  /\ calls w' = ev a :: calls w /\ f (device w) = (a, device w').
Proof.
  unfold device_call. destruct (f (device w)) as [a0 h].
  intros H. inversion H; subst. cbn. auto.
Qed.

Lemma device_call_runs {A} (f : HW -> A * HW) ev w :
  exists a w', device_call f ev w = Done (a, w').
Proof.
  unfold device_call. destruct (f (device w)) as [a h]. eauto.
Qed.

Lemma GetStatus_inv w hRes dwStatus w' :
  IDirectSoundBuffer_GetStatus api w = Done ((hRes, dwStatus), w') ->
  pDSBSecondary (sink w) <> NULL
  /\ sink w' = sink w /\ memory w' = memory w
  /\ calls w' = CallGetStatus hRes dwStatus :: calls w.
Proof.
  unfold IDirectSoundBuffer_GetStatus. intros H.
  apply through_pDSBSecondary_inv in H. destruct H as [Hp H].
  apply device_call_inv in H. cbn in H. tauto.
Qed.

Lemma GetCurrentPosition_inv w hRes cursor w' :
  IDirectSoundBuffer_GetCurrentPosition api w = Done ((hRes, cursor), w') ->
  pDSBSecondary (sink w) <> NULL
  /\ sink w' = sink w /\ memory w' = memory w
  /\ calls w' = CallGetCurrentPosition hRes cursor :: calls w
  /\ 0 <= cursor < 2 ^ 32.
Proof.
  unfold IDirectSoundBuffer_GetCurrentPosition. intros H.
  apply through_pDSBSecondary_inv in H. destruct H as [Hp H].
  apply device_call_inv in H. cbn in H.
  destruct H as (Hs & Hm & Hc & Hf).
  destruct (GetCurrentPosition api (device w)) as [[hr pos] h].
  inversion Hf; subst. repeat split; auto; apply u32_range.
Qed.

Lemma Lock_inv offset bytes second w hRes r w' :
  IDirectSoundBuffer_Lock api offset bytes second w = Done ((hRes, r), w') ->
  pDSBSecondary (sink w) <> NULL
  /\ sink w' = sink w /\ memory w' = memory w
  /\ calls w' = CallLock offset bytes hRes r :: calls w
  /\ 0 <= dwSizeBuffer1 r < 2 ^ 32 /\ 0 <= dwSizeBuffer2 r < 2 ^ 32.
Proof.
  unfold IDirectSoundBuffer_Lock. intros H.
  apply through_pDSBSecondary_inv in H. destruct H as [Hp H].
  apply device_call_inv in H. cbn in H.
  destruct H as (Hs & Hm & Hc & Hf).
  destruct (Lock api offset bytes second (device w)) as [[hr r0] h].
  inversion Hf; subst. cbn. repeat split; auto; apply u32_range.
Qed.

Lemma sleep_and_reread_inv w cursor hRes dwStatus w' :
  sleep_and_reread api w = Done ((cursor, hRes, dwStatus), w') ->
  pDSBSecondary (sink w) <> NULL
  /\ sink w' = sink w /\ memory w' = memory w
  /\ (exists hr, calls w' = CallGetStatus hRes dwStatus
                   :: CallGetCurrentPosition hr cursor
                   :: CallSleep 100 :: calls w)
  /\ 0 <= cursor < 2 ^ 32.
Proof.
  unfold sleep_and_reread, bind, do_Sleep, ret. intros H.
  destruct (device_call _ _ w) as [[[] w1]| |] eqn:E1; try discriminate.
  apply device_call_inv in E1. destruct E1 as (Hs1 & Hm1 & Hc1 & _).
  destruct (IDirectSoundBuffer_GetCurrentPosition api w1)
    as [[[hr cur] w2]| |] eqn:E2; try discriminate.
  apply GetCurrentPosition_inv in E2.
  destruct E2 as (Hp2 & Hs2 & Hm2 & Hc2 & Hr2).
  destruct (IDirectSoundBuffer_GetStatus api w2)
    as [[[hr3 st3] w3]| |] eqn:E3; try discriminate.
  apply GetStatus_inv in E3. destruct E3 as (Hp3 & Hs3 & Hm3 & Hc3).
  inversion H; subst.
  repeat split; try congruence; try lia.
  exists hr. congruence.
Qed.

Lemma read_status_and_cursor_inv w dwStatus hRes cursor w' :
  read_status_and_cursor api w = Done ((dwStatus, hRes, cursor), w') ->
  pDSBSecondary (sink w) <> NULL
  /\ sink w' = sink w /\ memory w' = memory w
  /\ (exists hr, calls w' = CallGetCurrentPosition hRes cursor
                   :: CallGetStatus hr dwStatus :: calls w)
  /\ 0 <= cursor < 2 ^ 32.
Proof.
  unfold read_status_and_cursor, bind, ret. intros H.
  destruct (IDirectSoundBuffer_GetStatus api w)
    as [[[hr1 st1] w1]| |] eqn:E1; try discriminate.
  apply GetStatus_inv in E1. destruct E1 as (Hp1 & Hs1 & Hm1 & Hc1).
  destruct (IDirectSoundBuffer_GetCurrentPosition api w1)
    as [[[hr2 cur] w2]| |] eqn:E2; try discriminate.
  apply GetCurrentPosition_inv in E2.
  destruct E2 as (Hp2 & Hs2 & Hm2 & Hc2 & Hr2).
  inversion H; subst.
  repeat split; try congruence; try lia.
  exists hr1. congruence.
Qed.

(** ** The polling loop *)

Lemma forallb_is_query_app l1 l2 :
  forallb is_query l1 = true -> forallb is_query l2 = true ->
  forallb is_query (l1 ++ l2) = true.
Proof. intros H1 H2. rewrite forallb_app, H1, H2. reflexivity. Qed.

(** The loop touches neither the memory nor, unless it gives up, the
    element; it only observes the device. *)
Lemma calculate_freesize_inv fuel length :
  forall cursor dwStatus w exit w',
    calculate_freesize api fuel length cursor dwStatus w = Done (exit, w') ->
    memory w' = memory w
    /\ (exists new, calls w' = new ++ calls w /\ forallb is_query new = true)
    /\ match exit with
       | Proceed dwStatus' =>
           sink w' = sink w
           /\ (has_flag dwStatus DSBSTATUS_PLAYING = true ->
               has_flag dwStatus' DSBSTATUS_PLAYING = true)
       | Abandon => sink w' = set_first_buffer_after_reset false (sink w)
       end.
Proof.
  induction fuel as [|fuel IH]; intros cursor dwStatus w exit w' H.
  - discriminate.
  - cbn [calculate_freesize] in H. unfold bind, get_sink in H.
    destruct (length >=? dwFreeBufferSize (sink w) cursor).
    + destruct (sleep_and_reread api w)
        as [[[[cur' hr] st'] w1]| |] eqn:E; try discriminate.
      apply sleep_and_reread_inv in E.
      destruct E as (Hp & Hs & Hm & [hr0 Hc] & Hr).
      destruct (SUCCEEDED hr && has_flag st' DSBSTATUS_PLAYING) eqn:Eagain.
      * apply IH in H. destruct H as (Hm' & [new [Hc' Hq]] & Hexit).
        split; [congruence|]. split.
        -- exists (new ++ [CallGetStatus hr st';
                            CallGetCurrentPosition hr0 cur'; CallSleep 100]).
           split.
           ++ rewrite Hc', Hc, <- app_assoc. reflexivity.
           ++ apply forallb_is_query_app; [exact Hq|reflexivity].
        -- destruct exit as [st''|].
           ++ destruct Hexit as [Hs' Hpl]. split; [congruence|].
              intros _. apply Hpl.
              apply andb_true_iff in Eagain. tauto.
           ++ congruence.
      * unfold modify_sink, ret in H. inversion H; subst. cbn.
        split; [exact Hm|]. split.
        -- exists [CallGetStatus hr st';
                    CallGetCurrentPosition hr0 cur'; CallSleep 100].
           split; [exact Hc|reflexivity].
        -- congruence.
    + unfold ret in H. inversion H; subst.
      split; [reflexivity|]. split.
      * exists []. split; reflexivity.
      * split; [reflexivity|tauto].
Qed.

(** With fuel for one more retry than it takes the playback to stop, the
    loop gives up. *)
Lemma calculate_freesize_abandons n :
  forall fuel length cursor dwStatus w,
    stops_after api n length cursor w = true ->
    (n < fuel)%nat ->
    exists w', calculate_freesize api fuel length cursor dwStatus w
               = Done (Abandon, w').
Proof.
  induction n as [|n IH]; intros fuel length cursor dwStatus w Hstop Hfuel;
    (destruct fuel as [|fuel]; [lia|]);
    cbn [stops_after] in Hstop; cbn [calculate_freesize];
    unfold bind, get_sink;
    apply andb_true_iff in Hstop; destruct Hstop as [Hfull Hstop];
    rewrite Hfull;
    destruct (sleep_and_reread api w)
      as [[[[cur' hr] st'] w1]| |]; try discriminate; cbn zeta in Hstop.
  - apply negb_true_iff in Hstop. rewrite Hstop.
    unfold modify_sink, ret. eauto.
  - apply andb_true_iff in Hstop. destruct Hstop as [Hagain Hstop].
    rewrite Hagain. apply IH; [exact Hstop|lia].
Qed.

Lemma wait_for_free_space_inv fuel length w exit w' :
  wait_for_free_space api fuel length w = Done (exit, w') ->
  pDSBSecondary (sink w) <> NULL
  /\ memory w' = memory w
  /\ (exists new, calls w' = new ++ calls w /\ forallb is_query new = true)
  /\ match exit with
     | Proceed _ => sink w' = sink w
     | Abandon => sink w' = set_first_buffer_after_reset false (sink w)
     end.
Proof.
  unfold wait_for_free_space, bind. intros H.
  destruct (read_status_and_cursor api w)
    as [[[[st hr] cur] w0]| |] eqn:E; try discriminate.
  apply read_status_and_cursor_inv in E.
  destruct E as (Hp & Hs & Hm & [hr0 Hc] & Hr).
  split; [exact Hp|].
  destruct (SUCCEEDED hr && has_flag st DSBSTATUS_PLAYING).
  - apply calculate_freesize_inv in H.
    destruct H as (Hm' & [new [Hc' Hq]] & Hexit).
    split; [congruence|]. split.
    + exists (new ++ [CallGetCurrentPosition hr cur; CallGetStatus hr0 st]).
      split.
      * rewrite Hc', Hc, <- app_assoc. reflexivity.
      * apply forallb_is_query_app; [exact Hq|reflexivity].
    + destruct exit as [st'|]; [destruct Hexit|]; congruence.
  - unfold ret in H. inversion H; subst.
    split; [exact Hm|]. split.
    + exists [CallGetCurrentPosition hr cur; CallGetStatus hr0 st].
      split; [exact Hc|reflexivity].
    + exact Hs.
Qed.

(** ** After the blocking check *)

Lemma restore_if_lost_inv dwStatus w w' :
  restore_if_lost api dwStatus w = Done (tt, w') ->
  memory w' = memory w
  /\ sink w' =
     (if has_flag dwStatus DSBSTATUS_BUFFERLOST
      then set_current_circular_offset 0 (sink w) else sink w)
  /\ (exists new, calls w' = new ++ calls w /\ existsb is_play new = false
                  /\ forall c, In c new -> exists hr, c = CallRestore hr).
Proof.
  unfold restore_if_lost. intros H.
  destruct (has_flag dwStatus DSBSTATUS_BUFFERLOST).
  - unfold bind, IDirectSoundBuffer_Restore in H.
    destruct (through_pDSBSecondary _ w) as [[hr w1]| |] eqn:E;
      try discriminate.
    apply through_pDSBSecondary_inv in E. destruct E as [_ E].
    apply device_call_inv in E. destruct E as (Hs & Hm & Hc & _).
    unfold modify_sink in H. inversion H; subst. cbn.
    split; [exact Hm|]. split; [congruence|].
    exists [CallRestore hr]. split; [exact Hc|]. split; [reflexivity|].
    intros c [<-|[]]. eauto.
  - unfold ret in H. inversion H; subst.
    split; [reflexivity|]. split; [reflexivity|].
    exists []. split; [reflexivity|]. split; [reflexivity|].
    intros c [].
Qed.

Lemma restore_if_lost_runs dwStatus w :
  pDSBSecondary (sink w) <> NULL ->
  exists w', restore_if_lost api dwStatus w = Done (tt, w').
Proof.
  intros Hp. unfold restore_if_lost.
  destruct (has_flag dwStatus DSBSTATUS_BUFFERLOST).
  - unfold bind, IDirectSoundBuffer_Restore.
    rewrite (through_pDSBSecondary_run _ _ Hp).
    destruct (device_call_runs (Restore api) CallRestore w) as (hr & w1 & E).
    rewrite E. unfold modify_sink. eauto.
  - unfold ret. eauto.
Qed.

Lemma Lock_runs offset bytes second w :
  pDSBSecondary (sink w) <> NULL ->
  exists hRes r w',
    IDirectSoundBuffer_Lock api offset bytes second w = Done ((hRes, r), w').
Proof.
  intros Hp. unfold IDirectSoundBuffer_Lock.
  rewrite (through_pDSBSecondary_run _ _ Hp).
  match goal with
  | |- context [device_call ?f ?ev w] =>
      destruct (device_call_runs f ev w) as ([hr r] & w1 & E)
  end.
  rewrite E. eauto.
Qed.

Lemma lock_and_copy_failed data length w hRes r w1 :
  IDirectSoundBuffer_Lock api (current_circular_offset (sink w)) length true w
  = Done ((hRes, r), w1) ->
  SUCCEEDED hRes = false ->
  lock_and_copy api data length w = Done (tt, w1).
Proof.
  intros HL Hhr. unfold lock_and_copy, bind, get_sink.
  rewrite HL, Hhr. reflexivity.
Qed.

Lemma lock_and_copy_succeeded data length w hRes r w1 :
  IDirectSoundBuffer_Lock api (current_circular_offset (sink w)) length true w
  = Done ((hRes, r), w1) ->
  SUCCEEDED hRes = true ->
  buffer_size (sink w) <> 0 ->
  exists w',
    lock_and_copy api data length w = Done (tt, w')
    /\ sink w' =
       set_current_circular_offset
         (u32 (current_circular_offset (sink w)
               + u32 (dwSizeBuffer1 r + dwSizeBuffer2 r))
          mod buffer_size (sink w)) (sink w)
    /\ memory w' = copied data r (memory w)
    /\ (exists new, calls w' = new ++ calls w /\ existsb is_play new = false).
Proof.
  intros HL Hhr Hcap. unfold lock_and_copy, bind, get_sink.
  rewrite HL, Hhr.
  apply Lock_inv in HL. destruct HL as (Hp & Hs & Hm & Hc & _).
  unfold do_memcpy, modify_memory, modify_sink, ret, copied.
  destruct (is_null (pLockedBuffer2 r)); simp_sink;
    rewrite Hs; (destruct (buffer_size (sink w) =? 0) eqn:E;
                 [apply Z.eqb_eq in E; contradiction|]);
    unfold IDirectSoundBuffer_Unlock, through_pDSBSecondary, device_call;
    simp_sink; rewrite ?Hs, (is_null_false _ Hp);
    destruct (Unlock api r (device w1)) as [hrU h];
    eexists; (split; [reflexivity|]); simp_sink;
    (split; [reflexivity|]); (split; [rewrite Hm; reflexivity|]);
    rewrite Hc.
  - exists [CallUnlock r hrU;
            CallMemcpy (pLockedBuffer1 r) data (dwSizeBuffer1 r);
            CallLock (current_circular_offset (sink w)) length hRes r].
    split; reflexivity.
  - exists [CallUnlock r hrU;
            CallMemcpy (pLockedBuffer2 r) (data + dwSizeBuffer1 r)
                       (dwSizeBuffer2 r);
            CallMemcpy (pLockedBuffer1 r) data (dwSizeBuffer1 r);
            CallLock (current_circular_offset (sink w)) length hRes r].
    split; reflexivity.
Qed.

Lemma play_if_needed_runs dwStatus w :
  pDSBSecondary (sink w) <> NULL ->
  exists w' new,
    play_if_needed api dwStatus w = Done (tt, w')
    /\ sink w' = set_first_buffer_after_reset false (sink w)
    /\ memory w' = memory w
    /\ calls w' = new ++ calls w
    /\ (if negb (has_flag dwStatus DSBSTATUS_PLAYING)
           && negb (first_buffer_after_reset (sink w))
        then exists hr, new = [CallPlay DSBPLAY_LOOPING hr]
        else new = []).
Proof.
  intros Hp. unfold play_if_needed, bind, get_sink.
  destruct (negb (has_flag dwStatus DSBSTATUS_PLAYING)
            && negb (first_buffer_after_reset (sink w))).
  - unfold IDirectSoundBuffer_Play, through_pDSBSecondary, device_call.
    rewrite (is_null_false _ Hp).
    destruct (Play api DSBPLAY_LOOPING (device w)) as [hr h].
    unfold modify_sink, ret. simp_sink.
    eexists _, [CallPlay DSBPLAY_LOOPING hr].
    split; [reflexivity|]. cbn. repeat split; eauto.
  - unfold modify_sink, ret. simp_sink.
    eexists _, []. split; [reflexivity|]. cbn. auto.
Qed.

Lemma existsb_is_play_app l1 l2 :
  existsb is_play l1 = false -> existsb is_play l2 = false ->
  existsb is_play (l1 ++ l2) = false.
Proof. intros H1 H2. rewrite existsb_app, H1, H2. reflexivity. Qed.

Lemma queries_are_not_play l :
  forallb is_query l = true -> existsb is_play l = false.
Proof.
  induction l as [|c l IH]; [reflexivity|].
  cbn. intros H. apply andb_true_iff in H. destruct H as [Hc Hl].
  rewrite (IH Hl). destruct c; try discriminate; reflexivity.
Qed.

Lemma restores_are_not_play l :
  (forall c, In c l -> exists hr, c = CallRestore hr) ->
  existsb is_play l = false.
Proof.
  induction l as [|c l IH]; [reflexivity|].
  intros H. cbn. rewrite IH by (intros; apply H; now right).
  destruct (H c (or_introl eq_refl)) as [hr ->]. reflexivity.
Qed.

(** The whole of [write] from the test of BUFFERLOST on: it always
    returns [length]; what it leaves behind depends on the lock. *)
Lemma write_after_poll_runs data length dwStatus w :
  pDSBSecondary (sink w) <> NULL ->
  buffer_size (sink w) <> 0 ->
  exists w1 hRes r w2 w' new,
    restore_if_lost api dwStatus w = Done (tt, w1)
    /\ IDirectSoundBuffer_Lock api (current_circular_offset (sink w1))
                                 length true w1 = Done ((hRes, r), w2)
    /\ write_after_poll api data length dwStatus w = Done (length, w')
    /\ sink w' =
       set_first_buffer_after_reset false
         (if SUCCEEDED hRes
          then set_current_circular_offset
                 (u32 (current_circular_offset (sink w1)
                       + u32 (dwSizeBuffer1 r + dwSizeBuffer2 r))
                  mod buffer_size (sink w)) (sink w1)
          else sink w1)
    /\ memory w' =
       (if SUCCEEDED hRes then copied data r (memory w) else memory w)
    /\ calls w' = new ++ calls w
    /\ (if negb (has_flag dwStatus DSBSTATUS_PLAYING)
           && negb (first_buffer_after_reset (sink w))
        then exists hr rest, new = CallPlay DSBPLAY_LOOPING hr :: rest
                             /\ existsb is_play rest = false
        else existsb is_play new = false).
Proof.
  intros Hp Hcap.
  destruct (restore_if_lost_runs dwStatus w Hp) as [w1 E1].
  pose proof (restore_if_lost_inv _ _ _ E1) as (Hm1 & Hs1 & new1 & Hc1 & _ & Hn1).
  apply restores_are_not_play in Hn1.
  assert (Hp1 : pDSBSecondary (sink w1) <> NULL).
  { rewrite Hs1. destruct (has_flag dwStatus DSBSTATUS_BUFFERLOST); exact Hp. }
  assert (Hcap1 : buffer_size (sink w1) = buffer_size (sink w)).
  { rewrite Hs1. destruct (has_flag dwStatus DSBSTATUS_BUFFERLOST);
      reflexivity. }
  assert (Hfl1 : first_buffer_after_reset (sink w1)
                 = first_buffer_after_reset (sink w)).
  { rewrite Hs1. destruct (has_flag dwStatus DSBSTATUS_BUFFERLOST);
      reflexivity. }
  destruct (Lock_runs (current_circular_offset (sink w1)) length true w1 Hp1)
    as (hRes & r & w2 & E2).
  pose proof (Lock_inv _ _ _ _ _ _ _ E2) as (_ & Hs2 & Hm2 & Hc2 & _).
  assert (E3 : exists w3 new3,
             lock_and_copy api data length w1 = Done (tt, w3)
             /\ sink w3 =
                (if SUCCEEDED hRes
                 then set_current_circular_offset
                        (u32 (current_circular_offset (sink w1)
                              + u32 (dwSizeBuffer1 r + dwSizeBuffer2 r))
                         mod buffer_size (sink w)) (sink w1)
                 else sink w1)
             /\ memory w3 =
                (if SUCCEEDED hRes then copied data r (memory w)
                 else memory w)
             /\ calls w3 = new3 ++ calls w1
             /\ existsb is_play new3 = false).
  { destruct (SUCCEEDED hRes) eqn:Ehr.
    - destruct (lock_and_copy_succeeded data length w1 hRes r w2 E2 Ehr)
        as (w3 & E3 & Hs3 & Hm3 & new3 & Hc3 & Hn3); [lia|].
      exists w3, new3. rewrite <- Hcap1, <- Hm1. auto.
    - exists w2, [CallLock (current_circular_offset (sink w1)) length hRes r].
      split; [now apply lock_and_copy_failed with hRes r|].
      repeat split; try congruence. exact Hc2. }
  destruct E3 as (w3 & new3 & E3 & Hs3 & Hm3 & Hc3 & Hn3).
  assert (Hp3 : pDSBSecondary (sink w3) <> NULL).
  { rewrite Hs3. destruct (SUCCEEDED hRes); exact Hp1. }
  assert (Hfl3 : first_buffer_after_reset (sink w3)
                 = first_buffer_after_reset (sink w)).
  { rewrite Hs3, <- Hfl1. destruct (SUCCEEDED hRes); reflexivity. }
  destruct (play_if_needed_runs dwStatus w3 Hp3)
    as (w' & new4 & E4 & Hs4 & Hm4 & Hc4 & Hn4).
  exists w1, hRes, r, w2, w', (new4 ++ new3 ++ new1).
  split; [exact E1|]. split; [exact E2|]. split.
  { unfold write_after_poll, bind. rewrite E1, E3, E4. reflexivity. }
  split; [rewrite Hs4, Hs3; reflexivity|].
  split; [congruence|].
  split; [rewrite Hc4, Hc3, Hc1, <- !app_assoc; reflexivity|].
  rewrite Hfl3 in Hn4.
  destruct (negb (has_flag dwStatus DSBSTATUS_PLAYING)
            && negb (first_buffer_after_reset (sink w))).
  - destruct Hn4 as [hr ->]. exists hr, (new3 ++ new1).
    split; [reflexivity|]. now apply existsb_is_play_app.
  - subst new4. cbn [app]. now apply existsb_is_play_app.
Qed.

(** ** The whole of [write] *)

Lemma write_proceeds fuel data length w dwStatus w0 :
  wait_for_free_space api fuel length w = Done (Proceed dwStatus, w0) ->
  gst_directsound_sink_write api fuel data length w
  = write_after_poll api data length dwStatus w0.
Proof.
  intros H. unfold gst_directsound_sink_write, bind. rewrite H. reflexivity.
Qed.

Lemma write_gives_up fuel data length w w0 :
  wait_for_free_space api fuel length w = Done (Abandon, w0) ->
  gst_directsound_sink_write api fuel data length w = Done (0, w0).
Proof.
  intros H. unfold gst_directsound_sink_write, bind. rewrite H. reflexivity.
Qed.

(** A write returns only through one of the two exits of the check. *)
Lemma write_inv fuel data length w written w' :
  gst_directsound_sink_write api fuel data length w = Done (written, w') ->
  (wait_for_free_space api fuel length w = Done (Abandon, w') /\ written = 0)
  \/ (exists dwStatus w0,
        wait_for_free_space api fuel length w = Done (Proceed dwStatus, w0)
        /\ write_after_poll api data length dwStatus w0 = Done (written, w')).
Proof.
  unfold gst_directsound_sink_write, bind. intros H.
  destruct (wait_for_free_space api fuel length w)
    as [[[st|] w0]| |]; try discriminate.
  - right. eauto.
  - left. unfold ret in H. inversion H; subst. auto.
Qed.

(** Without a playing buffer there is no blocking check. *)
Lemma wait_not_playing fuel length w dwStatus hRes cursor w0 :
  read_status_and_cursor api w = Done ((dwStatus, hRes, cursor), w0) ->
  has_flag dwStatus DSBSTATUS_PLAYING = false ->
  wait_for_free_space api fuel length w = Done (Proceed dwStatus, w0).
Proof.
  intros H Hpl. unfold wait_for_free_space, bind.
  rewrite H, Hpl, andb_false_r. reflexivity.
Qed.

Lemma wait_playing fuel length w dwStatus hRes cursor w0 :
  read_status_and_cursor api w = Done ((dwStatus, hRes, cursor), w0) ->
  SUCCEEDED hRes && has_flag dwStatus DSBSTATUS_PLAYING = true ->
  wait_for_free_space api fuel length w
  = calculate_freesize api fuel length cursor dwStatus w0.
Proof.
  intros H Hpl. unfold wait_for_free_space, bind.
  rewrite H, Hpl. reflexivity.
Qed.

(** An abandoned write: nothing copied, nothing locked, only the flag
    cleared. *)
Lemma write_abandoned n fuel data length w dwStatus hRes cursor w0 :
  read_status_and_cursor api w = Done ((dwStatus, hRes, cursor), w0) ->
  SUCCEEDED hRes && has_flag dwStatus DSBSTATUS_PLAYING = true ->
  stops_after api n length cursor w0 = true ->
  (n < fuel)%nat ->
  exists w' new,
    gst_directsound_sink_write api fuel data length w = Done (0, w')
    /\ sink w' = set_first_buffer_after_reset false (sink w)
    /\ memory w' = memory w
    /\ calls w' = new ++ calls w
    /\ forallb is_query new = true.
Proof.
  intros Hread Hpl Hstop Hfuel.
  destruct (calculate_freesize_abandons n fuel length cursor dwStatus w0
              Hstop Hfuel) as [w' Hloop].
  assert (Hwait : wait_for_free_space api fuel length w = Done (Abandon, w'))
    by (rewrite (wait_playing _ _ _ _ _ _ _ Hread Hpl); exact Hloop).
  pose proof (wait_for_free_space_inv _ _ _ _ _ Hwait)
    as (_ & Hm & (new & Hc & Hq) & Hs).
  exists w', new. split; [now apply write_gives_up|]. auto.
Qed.

(** A write that finds the buffer not playing. *)
Lemma write_not_playing fuel data length w dwStatus hRes cursor w0 :
  read_status_and_cursor api w = Done ((dwStatus, hRes, cursor), w0) ->
  has_flag dwStatus DSBSTATUS_PLAYING = false ->
  buffer_size (sink w) <> 0 ->
  exists w' new,
    gst_directsound_sink_write api fuel data length w = Done (length, w')
    /\ first_buffer_after_reset (sink w') = false
    /\ calls w' = new ++ calls w
    /\ (if first_buffer_after_reset (sink w)
        then existsb is_play new = false
        else exists hr rest, new = CallPlay DSBPLAY_LOOPING hr :: rest
                             /\ existsb is_play rest = false).
Proof.
  intros Hread Hpl Hcap.
  pose proof (wait_not_playing fuel length _ _ _ _ _ Hread Hpl) as Hwait.
  pose proof (read_status_and_cursor_inv _ _ _ _ _ Hread)
    as (Hp & Hs & Hm & (hr0 & Hc) & _).
  destruct (write_after_poll_runs data length dwStatus w0)
    as (w1 & hrL & r & w2 & w' & new & _ & _ & Hrun & Hs' & _ & Hc' & Hplay);
    [congruence|congruence|].
  exists w', (new ++ [CallGetCurrentPosition hRes cursor;
                      CallGetStatus hr0 dwStatus]).
  split; [rewrite (write_proceeds _ _ _ _ _ _ Hwait); exact Hrun|].
  split; [rewrite Hs'; reflexivity|].
  split; [rewrite Hc', Hc, <- app_assoc; reflexivity|].
  rewrite Hpl, Hs in Hplay. cbn [negb andb] in Hplay.
  destruct (first_buffer_after_reset (sink w)); cbn [negb] in Hplay.
  - apply existsb_is_play_app; [exact Hplay|reflexivity].
  - destruct Hplay as (hr & rest & -> & Hrest).
    exists hr, (rest ++ [CallGetCurrentPosition hRes cursor;
                         CallGetStatus hr0 dwStatus]).
    split; [reflexivity|]. apply existsb_is_play_app; [exact Hrest|reflexivity].
Qed.

(** ** The write offset *)

Lemma reset_runs w :
  exists w',
    gst_directsound_sink_reset api w = Done (tt, w')
    /\ sink w' =
       set_first_buffer_after_reset true
         (if is_null (pDSBSecondary (sink w)) then sink w
          else set_current_circular_offset 0 (sink w)).
Proof.
  unfold gst_directsound_sink_reset, bind, get_sink.
  destruct (is_null (pDSBSecondary (sink w))) eqn:Ep.
  - unfold ret, modify_sink. simp_sink. eexists. split; reflexivity.
  - unfold IDirectSoundBuffer_Stop, IDirectSoundBuffer_SetCurrentPosition,
      IDirectSoundBuffer_Lock, IDirectSoundBuffer_Unlock,
      through_pDSBSecondary, device_call, modify_sink, do_memset,
      modify_memory, ret.
    rewrite Ep. destruct (Stop api (device w)) as [hr1 h1]. simp_sink.
    rewrite Ep. destruct (SetCurrentPosition api 0 h1) as [hr2 h2]. simp_sink.
    rewrite Ep.
    destruct (Lock api 0 (buffer_size (sink w)) false h2) as [[hr3 r] h3].
    simp_sink.
    destruct (SUCCEEDED hr3).
    + simp_sink. rewrite Ep.
      match goal with
      | |- context [Unlock api ?r' h3] =>
          destruct (Unlock api r' h3) as [hr4 h4]
      end.
      simp_sink. eexists. split; reflexivity.
    + simp_sink. eexists. split; reflexivity.
Qed.

(** A fresh element has its write offset in range: 0 of DSBSIZE_MIN. *)
Lemma init_offset_in_range : offset_in_range gst_directsound_sink_init.
Proof. unfold offset_in_range. cbn. unfold DSBSIZE_MIN. lia. Qed.

Lemma write_keeps_offset_in_range fuel data length w written w' :
  gst_directsound_sink_write api fuel data length w = Done (written, w') ->
  offset_in_range (sink w) ->
  offset_in_range (sink w') /\ buffer_size (sink w') = buffer_size (sink w).
Proof.
  intros H [Hlo Hhi].
  destruct (write_inv _ _ _ _ _ _ H)
    as [[Hwait _]|(dwStatus & w0 & Hwait & Hrest)];
    pose proof (wait_for_free_space_inv _ _ _ _ _ Hwait) as (Hp & _ & _ & Hs).
  - unfold offset_in_range. rewrite Hs. simp_sink. lia.
  - destruct (write_after_poll_runs data length dwStatus w0)
      as (w1 & hRes & r & w2 & w'' & new & E1 & _ & Hrun & Hs' & _);
      [congruence|rewrite Hs; lia|].
    rewrite Hrest in Hrun. inversion Hrun; subst w''.
    pose proof (restore_if_lost_inv _ _ _ E1) as (_ & Hs1 & _).
    unfold offset_in_range. rewrite Hs', Hs1, Hs.
    destruct (SUCCEEDED hRes), (has_flag dwStatus DSBSTATUS_BUFFERLOST);
      simp_sink; split; try lia; apply Z.mod_pos_bound; lia.
Qed.


(** ** A lock that fails *)

(** C2 (as the code has it).  When the lock fails nothing is copied and
    the offset is not advanced: it is where the lock was attempted, at 0
    after the recovery of a lost buffer and unchanged otherwise.  The
    call still returns [length], not 0; play is tried and the flag
    cleared as for any other write. *)
Theorem write_with_failed_lock fuel data length w dwStatus w0 w1 hRes r w2 :
  wait_for_free_space api fuel length w = Done (Proceed dwStatus, w0) ->
  restore_if_lost api dwStatus w0 = Done (tt, w1) ->
  IDirectSoundBuffer_Lock api (current_circular_offset (sink w1))
                          length true w1 = Done ((hRes, r), w2) ->
  SUCCEEDED hRes = false ->
  exists w',
    gst_directsound_sink_write api fuel data length w = Done (length, w')
    /\ memory w' = memory w
    /\ current_circular_offset (sink w') =
       (if has_flag dwStatus DSBSTATUS_BUFFERLOST
        then 0 else current_circular_offset (sink w))
    /\ first_buffer_after_reset (sink w') = false.
Proof.
  intros Hwait E1 E2 Hhr.
  pose proof (wait_for_free_space_inv _ _ _ _ _ Hwait) as (Hp & Hm & _ & Hs).
  pose proof (restore_if_lost_inv _ _ _ E1) as (Hm1 & Hs1 & _).
  pose proof (Lock_inv _ _ _ _ _ _ _ E2) as (Hp1 & Hs2 & Hm2 & _).
  assert (Hp2 : pDSBSecondary (sink w2) <> NULL) by congruence.
  destruct (play_if_needed_runs dwStatus w2 Hp2)
    as (w' & new & E4 & Hs4 & Hm4 & _).
  exists w'. split.
  - rewrite (write_proceeds _ _ _ _ _ _ Hwait).
    unfold write_after_poll, bind.
    rewrite E1, (lock_and_copy_failed data _ _ _ _ _ E2 Hhr), E4.
    reflexivity.
  - split; [congruence|]. rewrite Hs4, Hs2, Hs1, Hs.
    destruct (has_flag dwStatus DSBSTATUS_BUFFERLOST); simp_sink; auto.
Qed.

(** ** The blocking check *)

(** The free space of the specification, over the integers. *)
Lemma dwFreeBufferSize_wraps s cursor :
  dwFreeBufferSize s cursor = u32 (free_bytes s cursor).
Proof.
  unfold dwFreeBufferSize, free_bytes, u32.
  destruct (cursor <? current_circular_offset s); [|reflexivity].
  apply Zminus_mod_idemp_r.
Qed.

Lemma free_bytes_fit s cursor :
  0 <= cursor < 2 ^ 32 ->
  0 <= current_circular_offset s <= buffer_size s ->
  buffer_size s < 2 ^ 32 ->
  u32 (free_bytes s cursor) = free_bytes s cursor.
Proof.
  intros Hc Ho Hb. unfold free_bytes.
  destruct (cursor <? current_circular_offset s) eqn:E.
  - apply Z.ltb_lt in E. apply u32_small. lia.
  - apply Z.ltb_ge in E. apply u32_small. lia.
Qed.

Lemma calculate_freesize_step fuel length cursor dwStatus w :
  calculate_freesize api (S fuel) length cursor dwStatus w
  = if length >=? dwFreeBufferSize (sink w) cursor
    then bind (sleep_and_reread api)
           (fun x =>
              let '(cursor', hRes', dwStatus') := x in
              if SUCCEEDED hRes' && has_flag dwStatus' DSBSTATUS_PLAYING
              then calculate_freesize api fuel length cursor' dwStatus'
              else bind (modify_sink (set_first_buffer_after_reset false))
                        (fun _ => ret Abandon)) w
    else Done (Proceed dwStatus, w).
Proof.
  cbn [calculate_freesize].
  destruct (length >=? dwFreeBufferSize (sink w) cursor) eqn:E;
    unfold bind at 1, get_sink; rewrite E; reflexivity.
Qed.


(** C4.  A write that enters the polling loop (the buffer plays and the
    request is at least the free space) and, after any number of retries
    that find it still so, re-reads a status that no longer reports a
    playing buffer, returns 0 given fuel for these retries; it has
    copied nothing: the memory is as before, and all it did to the
    device was to sleep and to read status and position. *)
Theorem blocked_write_abandoned_when_playback_stops
  n fuel data length w dwStatus hRes cursor w0 :
  read_status_and_cursor api w = Done ((dwStatus, hRes, cursor), w0) ->
  SUCCEEDED hRes && has_flag dwStatus DSBSTATUS_PLAYING = true ->
  stops_after api n length cursor w0 = true ->
  (n < fuel)%nat ->
  exists w' new,
    gst_directsound_sink_write api fuel data length w = Done (0, w')
    /\ memory w' = memory w
    /\ current_circular_offset (sink w') = current_circular_offset (sink w)
    /\ calls w' = new ++ calls w
    /\ forallb is_query new = true.
Proof.
  intros Hread Hpl Hstop Hfuel.
  destruct (write_abandoned n fuel data length _ _ _ _ _
              Hread Hpl Hstop Hfuel) as (w' & new & Hrun & Hs & Hm & Hc & Hq).
  exists w', new. rewrite Hs. auto.
Qed.

(** ** The copy *)

Lemma copied_two_regions data r m :
  pLockedBuffer2 r <> NULL ->
  0 <= dwSizeBuffer1 r -> 0 <= dwSizeBuffer2 r ->
  apart (pLockedBuffer1 r) (dwSizeBuffer1 r)
        (pLockedBuffer2 r) (dwSizeBuffer2 r) ->
  apart (pLockedBuffer1 r) (dwSizeBuffer1 r)
        data (dwSizeBuffer1 r + dwSizeBuffer2 r) ->
  bytes_at (copied data r m) (pLockedBuffer1 r) (Z.to_nat (dwSizeBuffer1 r))
  = bytes_at m data (Z.to_nat (dwSizeBuffer1 r))
  /\ bytes_at (copied data r m) (pLockedBuffer2 r)
              (Z.to_nat (dwSizeBuffer2 r))
     = bytes_at m (data + dwSizeBuffer1 r) (Z.to_nat (dwSizeBuffer2 r)).
Proof.
  intros Hp2 Hn1 Hn2 H12 H1d. unfold copied, apart in *.
  rewrite (is_null_false _ Hp2).
  split; apply bytes_at_ext; intros i Hi; rewrite Z2Nat.id in Hi by lia.
  - rewrite memcpy_outside by lia.
    rewrite memcpy_inside by lia. f_equal. lia.
  - rewrite memcpy_inside by lia.
    rewrite memcpy_outside by lia. f_equal. lia.
Qed.

(** C5.  A successful write of N bytes whose lock comes back as two
    regions whose sizes add up to N (the device's share of the claim)
    copies the first region1Size bytes of the input into region 1 and
    the rest into region 2: region 1 followed by region 2 is the input,
    byte for byte.  The regions lie apart from each other and from the
    input. *)
Theorem wrapped_write_reproduces_input
  fuel data length w dwStatus w0 w1 hRes r w2 :
  wait_for_free_space api fuel length w = Done (Proceed dwStatus, w0) ->
  restore_if_lost api dwStatus w0 = Done (tt, w1) ->
  IDirectSoundBuffer_Lock api (current_circular_offset (sink w1))
                          length true w1 = Done ((hRes, r), w2) ->
  SUCCEEDED hRes = true ->
  pLockedBuffer2 r <> NULL ->
  dwSizeBuffer1 r + dwSizeBuffer2 r = length ->
  apart (pLockedBuffer1 r) (dwSizeBuffer1 r)
        (pLockedBuffer2 r) (dwSizeBuffer2 r) ->
  apart (pLockedBuffer1 r) (dwSizeBuffer1 r) data length ->
  buffer_size (sink w) <> 0 ->
  exists w',
    gst_directsound_sink_write api fuel data length w = Done (length, w')
    /\ bytes_at (memory w') (pLockedBuffer1 r) (Z.to_nat (dwSizeBuffer1 r))
       = bytes_at (memory w) data (Z.to_nat (dwSizeBuffer1 r))
    /\ bytes_at (memory w') (pLockedBuffer2 r) (Z.to_nat (dwSizeBuffer2 r))
       = bytes_at (memory w) (data + dwSizeBuffer1 r)
                  (Z.to_nat (dwSizeBuffer2 r))
    /\ bytes_at (memory w') (pLockedBuffer1 r) (Z.to_nat (dwSizeBuffer1 r))
       ++ bytes_at (memory w') (pLockedBuffer2 r)
                   (Z.to_nat (dwSizeBuffer2 r))
       = bytes_at (memory w) data (Z.to_nat length).
Proof.
  intros Hwait E1 E2 Hhr Hp2 Hsum H12 H1d Hcap.
  pose proof (wait_for_free_space_inv _ _ _ _ _ Hwait) as (Hp & Hm & _ & Hs).
  destruct (write_after_poll_runs data length dwStatus w0)
    as (w1' & hRes' & r' & w2' & w' & new & E1' & E2' & Hrun & _ & Hm' & _);
    [congruence|congruence|].
  rewrite E1 in E1'. inversion E1'; subst w1'.
  rewrite E2 in E2'. inversion E2'; subst hRes' r' w2'.
  rewrite Hhr, Hm in Hm'.
  pose proof (Lock_inv _ _ _ _ _ _ _ E2) as (_ & _ & _ & _ & Hn1 & Hn2).
  destruct (copied_two_regions data r (memory w)) as [Hr1 Hr2];
    try lia; try assumption.
  { rewrite Hsum. exact H1d. }
  exists w'. split; [rewrite (write_proceeds _ _ _ _ _ _ Hwait); exact Hrun|].
  rewrite Hm', Hr1, Hr2. split; [reflexivity|]. split; [reflexivity|].
  rewrite <- Hsum, Z2Nat.inj_add, bytes_at_app by lia.
  rewrite Z2Nat.id by lia. reflexivity.
Qed.

(** ** The delay query *)

Lemma dwBytesInQueue_wraps s cursor :
  dwBytesInQueue s cursor = u32 (queued_bytes s cursor).
Proof.
  unfold dwBytesInQueue, queued_bytes, u32.
  destruct (cursor <? current_circular_offset s); [reflexivity|].
  apply Zplus_mod_idemp_r.
Qed.

Lemma queued_bytes_fit s cursor :
  0 <= cursor <= buffer_size s ->
  0 <= current_circular_offset s <= buffer_size s ->
  buffer_size s < 2 ^ 31 ->
  u32 (queued_bytes s cursor) = queued_bytes s cursor.
Proof.
  intros Hc Ho Hb. unfold queued_bytes.
  destruct (cursor <? current_circular_offset s) eqn:E.
  - apply Z.ltb_lt in E. apply u32_small. lia.
  - apply Z.ltb_ge in E. apply u32_small. lia.
Qed.

(** C6.  The delay query returns 0 when the status read does not report
    a playing buffer, and 0 when the position query does not return
    S_OK (so whenever it fails); when the buffer plays and the position
    is read, it returns the queued bytes, write_offset - cursor for a
    cursor below the write offset and write_offset + (capacity - cursor)
    otherwise, divided by bytes_per_sample, rounding down.  The queued
    bytes are computed on 32-bit unsigned integers, and are that very
    number whenever offset and cursor are within the capacity. *)
Theorem delay_queued_samples w hRes0 dwStatus w0 :
  IDirectSoundBuffer_GetStatus api w = Done ((hRes0, dwStatus), w0) ->
  (has_flag dwStatus DSBSTATUS_PLAYING = false ->
   gst_directsound_sink_delay api w = Done (0, w0))
  /\ (has_flag dwStatus DSBSTATUS_PLAYING = true ->
      forall hRes cursor w1,
        IDirectSoundBuffer_GetCurrentPosition api w0
        = Done ((hRes, cursor), w1) ->
        (hRes <> S_OK -> gst_directsound_sink_delay api w = Done (0, w1))
        /\ (FAILED hRes = true ->
            gst_directsound_sink_delay api w = Done (0, w1))
        /\ (hRes = S_OK ->
            0 < bytes_per_sample (sink w) ->
            gst_directsound_sink_delay api w
            = Done (u32 (queued_bytes (sink w) cursor)
                    / bytes_per_sample (sink w), w1))
        /\ (0 <= current_circular_offset (sink w) <= buffer_size (sink w) ->
            buffer_size (sink w) < 2 ^ 31 ->
            cursor <= buffer_size (sink w) ->
            u32 (queued_bytes (sink w) cursor)
            = queued_bytes (sink w) cursor)).
Proof.
  intros H0. unfold gst_directsound_sink_delay, bind. rewrite H0.
  split; intros Hpl; rewrite Hpl; [reflexivity|].
  intros hRes cursor w1 H1. rewrite H1.
  pose proof (GetStatus_inv _ _ _ _ H0) as (_ & Hs0 & _).
  pose proof (GetCurrentPosition_inv _ _ _ _ H1) as (_ & Hs1 & _ & _ & Hcur).
  assert (Hne : hRes <> S_OK -> (hRes =? S_OK) = false)
    by (intros; now apply Z.eqb_neq).
  split; [|split; [|split]].
  - intros Hhr. rewrite (Hne Hhr). reflexivity.
  - intros Hhr. rewrite Hne; [reflexivity|].
    unfold FAILED, S_OK in *. apply Z.ltb_lt in Hhr. lia.
  - intros -> Hbps. rewrite Z.eqb_refl.
    unfold get_sink. rewrite Hs1, Hs0.
    destruct (bytes_per_sample (sink w) =? 0) eqn:E;
      [apply Z.eqb_eq in E; lia|].
    rewrite dwBytesInQueue_wraps.
    pose proof (u32_range (queued_bytes (sink w) cursor)) as Hq.
    unfold ret. rewrite s32_u32_roundtrip; [reflexivity|].
    split.
    + apply Z.div_pos; lia.
    + apply Z.div_lt_upper_bound; nia.
  - intros Hoff Hcap Hcursor. apply queued_bytes_fit; lia.
Qed.

(** ** Reset *)

Lemma delay_not_playing w hRes dwStatus w' :
  IDirectSoundBuffer_GetStatus api w = Done ((hRes, dwStatus), w') ->
  has_flag dwStatus DSBSTATUS_PLAYING = false ->
  gst_directsound_sink_delay api w = Done (0, w').
Proof.
  intros H Hpl. unfold gst_directsound_sink_delay, bind.
  rewrite H, Hpl. reflexivity.
Qed.

(** C7 (as the code has it).  [reset] always returns, with no error to
    the caller, and sets the first-write-after-reset flag; a second
    reset leaves the element as the first did.  The write offset is 0
    after each when the element holds a hardware buffer (without one,
    reset leaves the offset alone), and the queued-sample count is 0
    after each when the device then reports a buffer that does not
    play. *)
Theorem reset_twice (w : World HW) :
  exists w1 w2,
    gst_directsound_sink_reset api w = Done (tt, w1)
    /\ gst_directsound_sink_reset api w1 = Done (tt, w2)
    /\ first_buffer_after_reset (sink w1) = true
    /\ first_buffer_after_reset (sink w2) = true
    /\ sink w2 = sink w1
    /\ (pDSBSecondary (sink w) <> NULL ->
        current_circular_offset (sink w1) = 0
        /\ current_circular_offset (sink w2) = 0)
    /\ (pDSBSecondary (sink w) = NULL ->
        current_circular_offset (sink w1) = current_circular_offset (sink w)
        /\ current_circular_offset (sink w2)
           = current_circular_offset (sink w))
    /\ (forall hRes dwStatus w',
           IDirectSoundBuffer_GetStatus api w1 = Done ((hRes, dwStatus), w') ->
           has_flag dwStatus DSBSTATUS_PLAYING = false ->
           gst_directsound_sink_delay api w1 = Done (0, w'))
    /\ (forall hRes dwStatus w',
           IDirectSoundBuffer_GetStatus api w2 = Done ((hRes, dwStatus), w') ->
           has_flag dwStatus DSBSTATUS_PLAYING = false ->
           gst_directsound_sink_delay api w2 = Done (0, w')).
Proof.
  destruct (reset_runs w) as (w1 & E1 & Hs1).
  destruct (reset_runs w1) as (w2 & E2 & Hs2).
  exists w1, w2.
  split; [exact E1|]. split; [exact E2|].
  assert (Hp1 : pDSBSecondary (sink w1) = pDSBSecondary (sink w)).
  { rewrite Hs1. destruct (is_null (pDSBSecondary (sink w))); reflexivity. }
  rewrite Hp1 in Hs2.
  split; [rewrite Hs1; reflexivity|].
  split; [rewrite Hs2; reflexivity|].
  split.
  { rewrite Hs2, Hs1.
    destruct (is_null (pDSBSecondary (sink w))); reflexivity. }
  split.
  { intros Hp. rewrite Hs2, Hs1, (is_null_false _ Hp). split; reflexivity. }
  split.
  { intros Hp. rewrite Hs2, Hs1. unfold is_null. rewrite Hp.
    split; reflexivity. }
  split; intros hRes dwStatus w' H Hpl;
    now apply delay_not_playing with hRes dwStatus.
Qed.

(** ** Starting playback *)

(** C8.  A write that finds the buffer not playing calls Play, looping,
    unless the first-write-after-reset flag is set, in which case the
    write makes no Play call at all; and every write that returns,
    abandoned or not, leaves the flag cleared (one that finds the flag
    set never calls Play). *)
Theorem write_starts_playback_unless_first_after_reset
  fuel data length (w : World HW) :
  buffer_size (sink w) <> 0 ->
  (forall dwStatus hRes cursor w0,
      read_status_and_cursor api w = Done ((dwStatus, hRes, cursor), w0) ->
      has_flag dwStatus DSBSTATUS_PLAYING = false ->
      exists w' new,
        gst_directsound_sink_write api fuel data length w = Done (length, w')
        /\ first_buffer_after_reset (sink w') = false
        /\ calls w' = new ++ calls w
        /\ (if first_buffer_after_reset (sink w)
            then existsb is_play new = false
            else exists hr rest,
                new = CallPlay DSBPLAY_LOOPING hr :: rest
                /\ existsb is_play rest = false))
  /\ (forall written w',
         gst_directsound_sink_write api fuel data length w
         = Done (written, w') ->
         first_buffer_after_reset (sink w') = false
         /\ (first_buffer_after_reset (sink w) = true ->
             exists new, calls w' = new ++ calls w
                         /\ existsb is_play new = false)).
Proof.
  intros Hcap. split.
  - intros dwStatus hRes cursor w0 Hread Hpl.
    now apply write_not_playing with dwStatus hRes cursor w0.
  - intros written w' H.
    destruct (write_inv _ _ _ _ _ _ H)
      as [[Hwait _]|(dwStatus & w0 & Hwait & Hrest)];
      pose proof (wait_for_free_space_inv _ _ _ _ _ Hwait)
        as (Hp & _ & (q & Hq & Hqs) & Hs).
    + split; [rewrite Hs; reflexivity|].
      intros _. exists q. split; [exact Hq|].
      now apply queries_are_not_play.
    + destruct (write_after_poll_runs data length dwStatus w0)
        as (w1 & hRes & r & w2 & w'' & new & _ & _ & Hrun & Hs' & _ & Hc & Hplay);
        [congruence|congruence|].
      rewrite Hrest in Hrun. inversion Hrun; subst w''.
      split; [rewrite Hs'; reflexivity|].
      intros Hfirst. rewrite Hs, Hfirst, andb_false_r in Hplay.
      exists (new ++ q). split; [rewrite Hc, Hq, app_assoc; reflexivity|].
      apply existsb_is_play_app; [exact Hplay|].
      now apply queries_are_not_play.
Qed.

(** C10.  A blocked write that is abandoned because the playback stopped
    during the polling returns 0 and leaves the first-write-after-reset
    flag cleared, whatever the flag was (so also when this was the
    designated first write after a reset); the next write on the element
    that finds the buffer not playing calls Play, looping. *)
Theorem abandoned_write_clears_flag_so_next_write_plays
  n fuel data length w dwStatus hRes cursor w0 :
  read_status_and_cursor api w = Done ((dwStatus, hRes, cursor), w0) ->
  SUCCEEDED hRes && has_flag dwStatus DSBSTATUS_PLAYING = true ->
  stops_after api n length cursor w0 = true ->
  (n < fuel)%nat ->
  exists w',
    gst_directsound_sink_write api fuel data length w = Done (0, w')
    /\ first_buffer_after_reset (sink w') = false
    /\ forall fuel2 data2 length2 wn dwStatus2 hRes2 cursor2 wn0,
        sink wn = sink w' ->
        buffer_size (sink w) <> 0 ->
        read_status_and_cursor api wn
        = Done ((dwStatus2, hRes2, cursor2), wn0) ->
        has_flag dwStatus2 DSBSTATUS_PLAYING = false ->
        exists w'' hr rest,
          gst_directsound_sink_write api fuel2 data2 length2 wn
          = Done (length2, w'')
          /\ calls w'' = (CallPlay DSBPLAY_LOOPING hr :: rest) ++ calls wn
          /\ existsb is_play rest = false.
Proof.
  intros Hread Hpl Hstop Hfuel.
  destruct (write_abandoned n fuel data length _ _ _ _ _
              Hread Hpl Hstop Hfuel) as (w' & new & Hrun & Hs & _).
  exists w'. split; [exact Hrun|]. split; [rewrite Hs; reflexivity|].
  intros fuel2 data2 length2 wn dwStatus2 hRes2 cursor2 wn0
         Hsame Hcap Hread2 Hpl2.
  destruct (write_not_playing fuel2 data2 length2 wn _ _ _ _ Hread2 Hpl2)
    as (w'' & new2 & Hrun2 & _ & Hc2 & Hplay).
  { rewrite Hsame, Hs. exact Hcap. }
  rewrite Hsame, Hs in Hplay. cbn in Hplay.
  destruct Hplay as (hr & rest & -> & Hrest).
  exists w'', hr, rest. auto.
Qed.

(** ** Buffer geometry *)

(** C9 (as the code has it).  For a valid configuration (one or two
    channels, a rate of at least 1 Hz, a frame size that fits the 16-bit
    nBlockAlign) whose byte rate, rate * bytes_per_sample, fits the
    32-bit nAvgBytesPerSec, prepare stores the capacity
    rate * bytes_per_sample / 2; for 44100 Hz and 4 bytes per sample
    that is 88200. *)
Theorem prepare_computes_half_second_capacity spec (w : World HW) :
  creates_buffers api ->
  pDS (sink w) <> NULL ->
  channels spec = 1 \/ channels spec = 2 ->
  1 <= rate spec ->
  0 <= spec_bytes_per_sample spec < 2 ^ 16 ->
  rate spec * spec_bytes_per_sample spec < 2 ^ 32 ->
  exists ok w',
    gst_directsound_sink_prepare api spec w = Done (ok, w')
    /\ buffer_size (sink w')
       = rate spec * spec_bytes_per_sample spec / 2
    /\ (rate spec = 44100 -> spec_bytes_per_sample spec = 4 ->
        buffer_size (sink w') = 88200).
Proof.
  intros Hdev HpDS Hch Hrate Hbps Hfit.
  destruct (prepare_runs spec w Hdev HpDS) as (ok & w' & Hrun & Hsize & _).
  { destruct Hch as [-> | ->]; discriminate. }
  exists ok, w'. split; [exact Hrun|].
  rewrite Hsize, nAvgBytesPerSec_exact by lia.
  split; [reflexivity|]. intros -> ->. reflexivity.
Qed.

End SinkProofs.

(** ** Concrete runs on the scripted device *)

(** Closed arithmetic side conditions, by evaluation. *)
Ltac by_evaluation :=
  vm_compute; repeat split; first [reflexivity | discriminate].

Lemma test_device_creates_buffers : creates_buffers TestDevice.api.
Proof.
  intros desc h hRes p h'. cbn.
  destruct (TestDevice.t_create_fails h); intros H Hhr;
    inversion H; subst; discriminate.
Qed.



(** The lock is refused: the write offset stays at 1000 and the call
    returns 4096. *)
Lemma write_with_failed_lock_witness :
  exists w',
    gst_directsound_sink_write TestDevice.api 1 1000 4096
                               TestDevice.lock_refused = Done (4096, w')
    /\ memory w' = memory TestDevice.lock_refused
    /\ current_circular_offset (sink w') = 1000.
Proof.
  edestruct (write_with_failed_lock TestDevice.api 1%nat 1000 4096
               TestDevice.lock_refused) as (w' & Hrun & Hmem & Hoff & _).
  - reflexivity.
  - reflexivity.
  - reflexivity.
  - reflexivity.
  - exists w'. split; [exact Hrun|]. split; [exact Hmem|exact Hoff].
Defined.

(** C2 as stated fails.  A write of 4096 bytes whose lock is refused
    returns 4096, not 0; and when the buffer was lost, the write offset,
    1000 before the call, is 0 after it, not unchanged. *)
Lemma failed_lock_write_returns_length_not_zero :
  (exists w',
      gst_directsound_sink_write TestDevice.api 1 1000 4096
                                 TestDevice.lock_refused = Done (4096, w')
      /\ calls w' =
         [CallPlay DSBPLAY_LOOPING S_OK;
          CallLock 1000 4096 TestDevice.E_FAIL
                   {| pLockedBuffer1 := NULL; dwSizeBuffer1 := 0;
                      pLockedBuffer2 := NULL; dwSizeBuffer2 := 0 |};
          CallGetCurrentPosition S_OK 0;
          CallGetStatus S_OK 0])
  /\ SUCCEEDED TestDevice.E_FAIL = false
  /\ 4096 <> 0
  /\ (exists w',
         gst_directsound_sink_write TestDevice.api 1 1000 4096
           TestDevice.lost_and_lock_refused = Done (4096, w')
         /\ current_circular_offset (sink TestDevice.lost_and_lock_refused)
            = 1000
         /\ current_circular_offset (sink w') = 0).
Proof.
  split; [eexists; split; reflexivity|].
  split; [reflexivity|]. split; [discriminate|].
  eexists. split; [reflexivity|]. split; reflexivity.
Qed.


(** Playing and full; the second re-read finds the playback stopped: the
    write returns 0 and the memory is untouched. *)
Lemma blocked_write_abandoned_when_playback_stops_witness :
  exists w',
    gst_directsound_sink_write TestDevice.api 5 1000 4096
                               TestDevice.full_then_stopped = Done (0, w')
    /\ memory w' = memory TestDevice.full_then_stopped.
Proof.
  edestruct (blocked_write_abandoned_when_playback_stops TestDevice.api
               1%nat 5%nat 1000 4096 TestDevice.full_then_stopped)
    as (w' & new & Hrun & Hmem & _).
  - reflexivity.
  - reflexivity.
  - reflexivity.
  - lia.
  - exists w'. split; [exact Hrun|exact Hmem].
Defined.

(** 4096 bytes written at offset 86000 of 88200: 2200 bytes go to the
    end of the buffer, 1896 to its start, and the two regions read back
    as the input. *)
Lemma wrapped_write_reproduces_input_witness :
  exists w',
    gst_directsound_sink_write TestDevice.api 1 1000 4096
                               TestDevice.near_the_end = Done (4096, w')
    /\ bytes_at (memory w') (65536 + 86000) 2200
       ++ bytes_at (memory w') 65536 1896
       = bytes_at (memory TestDevice.near_the_end) 1000 4096.
Proof.
  edestruct (wrapped_write_reproduces_input TestDevice.api 1%nat 1000 4096
               TestDevice.near_the_end) as (w' & Hrun & _ & _ & Hall).
  - reflexivity.
  - reflexivity.
  - reflexivity.
  - reflexivity.
  - by_evaluation.
  - by_evaluation.
  - right. by_evaluation.
  - right. by_evaluation.
  - by_evaluation.
  - exists w'. split; [exact Hrun|exact Hall].
Defined.

(** Playing, cursor at 1000, write offset at 4096, 4 bytes per sample:
    3096 bytes, 774 samples. *)
Lemma delay_queued_samples_witness :
  exists w1,
    gst_directsound_sink_delay TestDevice.api TestDevice.playing_with_queue
    = Done (774, w1).
Proof.
  edestruct (delay_queued_samples TestDevice.api
               TestDevice.playing_with_queue) as [_ Hplaying].
  - reflexivity.
  - edestruct Hplaying as (_ & _ & Hok & _).
    + reflexivity.
    + reflexivity.
    + eexists. apply Hok; by_evaluation.
Defined.

(** Two resets of a prepared session: the write offset, 4096 before, is
    0 after each. *)
Lemma reset_twice_witness :
  exists w1 w2,
    gst_directsound_sink_reset TestDevice.api TestDevice.playing_with_queue
    = Done (tt, w1)
    /\ gst_directsound_sink_reset TestDevice.api w1 = Done (tt, w2)
    /\ current_circular_offset (sink w1) = 0
    /\ current_circular_offset (sink w2) = 0
    /\ first_buffer_after_reset (sink w2) = true.
Proof.
  destruct (reset_twice TestDevice.api TestDevice.playing_with_queue)
    as (w1 & w2 & E1 & E2 & _ & Hflag & _ & Hbuffer & _).
  destruct Hbuffer as [H1 H2]; [by_evaluation|].
  exists w1, w2. auto.
Defined.

(** C7 as stated fails.  (1) A session whose second prepare was refused
    holds no buffer and has its write offset at 4096; reset leaves the
    offset at 4096, not 0.  (2) On a device that refuses Stop the buffer
    still plays after reset, and the queued-sample count is then
    88200 / 4 = 22050, not 0. *)
Lemma reset_without_buffer_or_with_stop_refused :
  option_map sink TestDevice.second_prepare_refused
  = Some (TestDevice.unprepared 4096)
  /\ pDSBSecondary (TestDevice.unprepared 4096) = NULL
  /\ option_map sink
       (TestDevice.and_then TestDevice.second_prepare_refused
          (gst_directsound_sink_reset TestDevice.api))
     = Some (set_first_buffer_after_reset true (TestDevice.unprepared 4096))
  /\ current_circular_offset
       (set_first_buffer_after_reset true (TestDevice.unprepared 4096))
     = 4096
  /\ 4096 <> 0
  /\ TestDevice.and_then_result
       (TestDevice.world_of
          (gst_directsound_sink_reset TestDevice.api TestDevice.cannot_stop))
       (gst_directsound_sink_delay TestDevice.api)
     = Some 22050
  /\ 22050 <> 0.
Proof.
  split; [vm_compute; reflexivity|]. split; [reflexivity|].
  split; [vm_compute; reflexivity|]. split; [reflexivity|].
  split; [discriminate|].
  split; [vm_compute; reflexivity|discriminate].
Qed.

(** A write that finds the buffer not playing, the flag clear: the last
    call it makes is Play, looping. *)
Lemma write_starts_playback_unless_first_after_reset_witness :
  exists w' hr rest,
    gst_directsound_sink_write TestDevice.api 1 1000 4096
                               TestDevice.near_the_end = Done (4096, w')
    /\ first_buffer_after_reset (sink w') = false
    /\ calls w' = CallPlay DSBPLAY_LOOPING hr :: rest.
Proof.
  destruct (write_starts_playback_unless_first_after_reset TestDevice.api
              1%nat 1000 4096 TestDevice.near_the_end) as [Hidle _].
  - by_evaluation.
  - edestruct Hidle as (w' & new & Hrun & Hflag & Hcalls & Hplay).
    + reflexivity.
    + reflexivity.
    + destruct Hplay as (hr & rest & Hnew & _).
      exists w', hr, rest.
      split; [exact Hrun|]. split; [exact Hflag|].
      rewrite Hcalls, Hnew. apply app_nil_r.
Defined.

(** prepare for stereo, 16 bit, 44100 Hz: 88200 bytes. *)
Lemma prepare_computes_half_second_capacity_witness :
  exists ok w',
    gst_directsound_sink_prepare TestDevice.api TestDevice.cd_quality
                                 TestDevice.near_the_end = Done (ok, w')
    /\ buffer_size (sink w') = 88200.
Proof.
  destruct (prepare_computes_half_second_capacity TestDevice.api
              TestDevice.cd_quality TestDevice.near_the_end)
    as (ok & w' & Hrun & _ & Hcd).
  - exact test_device_creates_buffers.
  - by_evaluation.
  - right. reflexivity.
  - by_evaluation.
  - by_evaluation.
  - by_evaluation.
  - exists ok, w'. split; [exact Hrun|]. apply Hcd; reflexivity.
Defined.

(** C9 as stated fails.  For two channels, 2^30 Hz and 4 bytes per
    sample the byte rate 2^32 wraps to 0 in nAvgBytesPerSec, and prepare
    stores the capacity 0, not 2^30 * 4 / 2 = 2^31. *)
Lemma prepare_capacity_wraps_at_32_bits :
  channels TestDevice.gigahertz = 2
  /\ rate TestDevice.gigahertz = 2 ^ 30
  /\ spec_bytes_per_sample TestDevice.gigahertz = 4
  /\ option_map (fun w => buffer_size (sink w))
       (TestDevice.world_of
          (gst_directsound_sink_prepare TestDevice.api TestDevice.gigahertz
                                        TestDevice.near_the_end))
     = Some 0
  /\ rate TestDevice.gigahertz
     * spec_bytes_per_sample TestDevice.gigahertz / 2 = 2 ^ 31
  /\ 0 <> 2 ^ 31.
Proof.
  split; [reflexivity|]. split; [reflexivity|]. split; [reflexivity|].
  split; [vm_compute; reflexivity|].
  split; [reflexivity|discriminate].
Qed.

(** The first write after a reset blocks and is abandoned: it returns 0
    with the flag cleared, and the write that follows, finding the
    buffer stopped, ends with a Play call. *)
Lemma abandoned_write_clears_flag_so_next_write_plays_witness :
  first_buffer_after_reset (sink TestDevice.full_then_stopped) = true
  /\ exists w' w'' hr rest,
      gst_directsound_sink_write TestDevice.api 5 1000 4096
                                 TestDevice.full_then_stopped = Done (0, w')
      /\ first_buffer_after_reset (sink w') = false
      /\ gst_directsound_sink_write TestDevice.api 1 1000 4096 w'
         = Done (4096, w'')
      /\ calls w'' = (CallPlay DSBPLAY_LOOPING hr :: rest) ++ calls w'.
Proof.
  split; [reflexivity|].
  edestruct (abandoned_write_clears_flag_so_next_write_plays TestDevice.api
               1%nat 5%nat 1000 4096 TestDevice.full_then_stopped)
    as (w' & Hrun & Hflag & Hnext).
  - reflexivity.
  - reflexivity.
  - reflexivity.
  - lia.
  - pose proof Hrun as Hw'.
    vm_compute in Hw'.
    match type of Hw' with
    | Done (_, ?v) = Done (_, _) => assert (Ew : w' = v) by congruence
    end.
    clear Hw'. subst w'.
    edestruct Hnext with (fuel2 := 1%nat) (data2 := 1000) (length2 := 4096)
      as (w'' & hr & rest & Hrun2 & Hc & _).
    + reflexivity.
    + by_evaluation.
    + reflexivity.
    + reflexivity.
    + eexists _, w'', hr, rest.
      split; [exact Hrun|]. split; [exact Hflag|].
      split; [exact Hrun2|exact Hc].
Defined.

(** * Beyond the write path: properties, lifecycle, invariants *)

Ltac simp_element :=
  unfold set_attenuation in *; simp_sink.

Ltac invert_done H :=
  inversion H; subst; clear H.

Section ElementProofs.

Context {HW : Type} (api : DirectSound HW).

(** ** Inverting the steps of [write], whatever the capacity *)

Lemma lock_and_copy_inv data length w w' :
  lock_and_copy api data length w = Done (tt, w') ->
  exists hRes r w1,
    IDirectSoundBuffer_Lock api (current_circular_offset (sink w))
                            length true w = Done ((hRes, r), w1)
    /\ if SUCCEEDED hRes
       then buffer_size (sink w) <> 0
            /\ sink w' =
               set_current_circular_offset
                 (u32 (current_circular_offset (sink w)
                       + u32 (dwSizeBuffer1 r + dwSizeBuffer2 r))
                  mod buffer_size (sink w)) (sink w)
            /\ memory w' = copied data r (memory w)
       else w' = w1.
Proof.
  intros H.
  destruct (IDirectSoundBuffer_Lock api (current_circular_offset (sink w))
              length true w) as [[[hRes r] w1]| |] eqn:EL.
  - exists hRes, r, w1. split; [reflexivity|].
    destruct (SUCCEEDED hRes) eqn:Ehr.
    + destruct (Z.eq_dec (buffer_size (sink w)) 0) as [E0|E0].
      * exfalso. revert H.
        unfold lock_and_copy, bind, get_sink. rewrite EL, Ehr.
        apply Lock_inv in EL. destruct EL as (_ & Hs & _).
        unfold do_memcpy, modify_memory, modify_sink, ret.
        destruct (is_null (pLockedBuffer2 r)); simp_sink;
          rewrite Hs, E0; discriminate.
      * destruct (lock_and_copy_succeeded api data length w hRes r w1
                    EL Ehr E0) as (w'' & Hrun & Hs & Hm & _).
        rewrite Hrun in H. invert_done H. auto.
    + rewrite (lock_and_copy_failed api data length w hRes r w1 EL Ehr) in H.
      now invert_done H.
  - unfold lock_and_copy, bind, get_sink in H. rewrite EL in H. discriminate.
  - unfold lock_and_copy, bind, get_sink in H. rewrite EL in H. discriminate.
Qed.

Lemma play_if_needed_inv dwStatus w w' :
  play_if_needed api dwStatus w = Done (tt, w') ->
  sink w' = set_first_buffer_after_reset false (sink w)
  /\ memory w' = memory w
  /\ exists new,
      calls w' = new ++ calls w
      /\ if negb (has_flag dwStatus DSBSTATUS_PLAYING)
            && negb (first_buffer_after_reset (sink w))
         then exists hr, new = [CallPlay DSBPLAY_LOOPING hr]
         else new = [].
Proof.
  unfold play_if_needed, bind, get_sink. intros H.
  destruct (negb (has_flag dwStatus DSBSTATUS_PLAYING)
            && negb (first_buffer_after_reset (sink w))).
  - unfold IDirectSoundBuffer_Play in H.
    destruct (through_pDSBSecondary _ w) as [[hr w1]| |] eqn:E;
      try discriminate.
    apply through_pDSBSecondary_inv in E. destruct E as [_ E].
    apply device_call_inv in E. destruct E as (Hs & Hm & Hc & _).
    unfold ret, modify_sink in H. invert_done H. cbn.
    rewrite Hs, Hm. split; [reflexivity|]. split; [reflexivity|].
    exists [CallPlay DSBPLAY_LOOPING hr]. split; [exact Hc|eauto].
  - unfold ret, modify_sink in H. invert_done H. cbn.
    split; [reflexivity|]. split; [reflexivity|].
    exists []. split; reflexivity.
Qed.

(** What any write that returns has done to the element. *)
Lemma write_shape fuel data length w written w' :
  gst_directsound_sink_write api fuel data length w = Done (written, w') ->
  exists off,
    sink w' = set_first_buffer_after_reset false
                (set_current_circular_offset off (sink w))
    /\ (off = current_circular_offset (sink w)
        \/ off = 0
        \/ (buffer_size (sink w) <> 0
            /\ exists x, off = x mod buffer_size (sink w))).
Proof.
  intros H.
  destruct (write_inv api _ _ _ _ _ _ H)
    as [[Hwait _]|(dwStatus & w0 & Hwait & Hrest)];
    pose proof (wait_for_free_space_inv api _ _ _ _ _ Hwait)
      as (_ & _ & _ & Hs).
  - exists (current_circular_offset (sink w)). split; [|auto].
    rewrite Hs. destruct (sink w). reflexivity.
  - unfold write_after_poll, bind in Hrest.
    destruct (restore_if_lost api dwStatus w0) as [[[] w1]| |] eqn:E1;
      try discriminate.
    destruct (lock_and_copy api data length w1) as [[[] w2]| |] eqn:E2;
      try discriminate.
    destruct (play_if_needed api dwStatus w2) as [[[] w3]| |] eqn:E3;
      try discriminate.
    unfold ret in Hrest. invert_done Hrest.
    apply restore_if_lost_inv in E1. destruct E1 as (_ & Hs1 & _).
    apply lock_and_copy_inv in E2.
    destruct E2 as (hRes & r & w1' & EL & Hcopy).
    apply Lock_inv in EL. destruct EL as (_ & HsL & _).
    apply play_if_needed_inv in E3. destruct E3 as (Hs3 & _).
    assert (Hcap1 : buffer_size (sink w1) = buffer_size (sink w)).
    { rewrite Hs1, Hs.
      destruct (has_flag dwStatus DSBSTATUS_BUFFERLOST); reflexivity. }
    destruct (SUCCEEDED hRes).
    + destruct Hcopy as (Hcap & Hs2 & _). rewrite Hcap1 in Hcap, Hs2.
      exists (u32 (current_circular_offset (sink w1)
                   + u32 (dwSizeBuffer1 r + dwSizeBuffer2 r))
              mod buffer_size (sink w)).
      split.
      * rewrite Hs3, Hs2, Hs1, Hs.
        destruct (has_flag dwStatus DSBSTATUS_BUFFERLOST); reflexivity.
      * right. right. split; [exact Hcap|]. eauto.
    + subst w2. rewrite Hs3, HsL, Hs1, Hs.
      destruct (has_flag dwStatus DSBSTATUS_BUFFERLOST).
      * exists 0. split; [reflexivity|auto].
      * exists (current_circular_offset (sink w)).
        split; [destruct (sink w); reflexivity|auto].
Qed.

(** ** The attenuation property *)

Lemma set_attenuation_same s : set_attenuation (attenuation s) s = s.
Proof. destruct s. reflexivity. Qed.

Lemma set_property_runs prop_id value w :
  exists w' new,
    gst_directsound_sink_set_property api prop_id value w = Done (tt, w')
    /\ sink w' = (if prop_id =? PROP_ATTENUATION
                  then set_attenuation value (sink w) else sink w)
    /\ memory w' = memory w
    /\ calls w' = new ++ calls w
    /\ (if (prop_id =? PROP_ATTENUATION)
           && negb (value =? attenuation (sink w))
           && negb (is_null (pDSBSecondary (sink w)))
        then exists hr, new = [CallSetVolume value hr]
                        /\ SetVolume api value (device w) = (hr, device w')
        else new = [] /\ device w' = device w).
Proof.
  unfold gst_directsound_sink_set_property.
  destruct (prop_id =? PROP_ATTENUATION); cbn [andb].
  - unfold bind, get_sink.
    destruct (value =? attenuation (sink w)) eqn:Ev; cbn [negb andb].
    + apply Z.eqb_eq in Ev. subst value. unfold ret.
      exists w, []. rewrite set_attenuation_same. repeat split.
    + unfold modify_sink. simp_element.
      destruct (is_null (pDSBSecondary (sink w))) eqn:Ep; cbn [negb].
      * unfold ret. eexists _, []. split; [reflexivity|]. cbn.
        repeat split.
      * unfold IDirectSoundBuffer_SetVolume, through_pDSBSecondary,
          device_call. simp_element. rewrite Ep.
        destruct (SetVolume api value (device w)) as [hr h] eqn:Evol.
        unfold ret. eexists _, [CallSetVolume value hr].
        split; [reflexivity|]. cbn. eauto 6.
  - unfold ret. exists w, []. repeat split.
Qed.

(** X1.  The attenuation written by set_property is the one get_property
    reads back, whatever it was before and whether or not a buffer
    exists; nothing else of the element and nothing of the memory
    changes, and the call cannot fail. *)
Theorem attenuation_round_trip value (w : World HW) :
  exists w',
    gst_directsound_sink_set_property api PROP_ATTENUATION value w
    = Done (tt, w')
    /\ gst_directsound_sink_get_property PROP_ATTENUATION w'
       = Done (Some value, w')
    /\ sink w' = set_attenuation value (sink w)
    /\ memory w' = memory w.
Proof.
  destruct (set_property_runs PROP_ATTENUATION value w)
    as (w' & new & Hrun & Hs & Hm & _).
  rewrite Z.eqb_refl in Hs.
  exists w'. split; [exact Hrun|]. split; [|auto].
  unfold gst_directsound_sink_get_property, bind, get_sink, ret.
  rewrite Z.eqb_refl, Hs. reflexivity.
Qed.

(** X2.  set_property talks to the sound card only to pass on a changed
    attenuation to an existing buffer: then it makes the one call
    SetVolume (value).  With the value unchanged, with no buffer, or for
    an unknown property id it makes no call at all; in particular
    setting the same value a second time leaves the world as it is, and
    an unknown id changes nothing and reads nothing. *)
Theorem set_property_calls_device_only_on_change prop_id value (w : World HW) :
  exists w' new,
    gst_directsound_sink_set_property api prop_id value w = Done (tt, w')
    /\ calls w' = new ++ calls w
    /\ (if (prop_id =? PROP_ATTENUATION)
           && negb (value =? attenuation (sink w))
           && negb (is_null (pDSBSecondary (sink w)))
        then exists hr, new = [CallSetVolume value hr]
        else new = [] /\ device w' = device w)
    /\ gst_directsound_sink_set_property api prop_id value w'
       = Done (tt, w')
    /\ (prop_id <> PROP_ATTENUATION ->
        w' = w
        /\ gst_directsound_sink_get_property prop_id w = Done (None, w)).
Proof.
  destruct (set_property_runs prop_id value w)
    as (w' & new & Hrun & Hs & Hm & Hc & Hnew).
  exists w', new. split; [exact Hrun|]. split; [exact Hc|]. split.
  { destruct ((prop_id =? PROP_ATTENUATION)
              && negb (value =? attenuation (sink w))
              && negb (is_null (pDSBSecondary (sink w))));
      [destruct Hnew as (hr & Hn & _); eauto|exact Hnew]. }
  split.
  - unfold gst_directsound_sink_set_property, bind, get_sink.
    destruct (prop_id =? PROP_ATTENUATION); [|reflexivity].
    rewrite Hs. cbn. rewrite Z.eqb_refl. reflexivity.
  - intros Hid. apply Z.eqb_neq in Hid.
    unfold gst_directsound_sink_set_property in Hrun.
    unfold gst_directsound_sink_get_property.
    rewrite Hid in *. unfold ret in *. invert_done Hrun. auto.
Qed.

(** ** prepare *)

(** The buffer description that [prepare] hands to CreateSoundBuffer. *)
Lemma prepare_inv spec w ok w' :
  gst_directsound_sink_prepare api spec w = Done (ok, w') ->
  exists hRes p volume,
    u16 (channels spec) <> 0
    /\ pDS (sink w) <> NULL
    /\ ok = negb (FAILED hRes)
    /\ sink w' =
       set_pDSBSecondary p
         (set_buffer_size (nAvgBytesPerSec (fill_WAVEFORMATEX spec) / 2)
            (set_bytes_per_sample (u32 (spec_bytes_per_sample spec))
               (sink w)))
    /\ memory w' = memory w
    /\ calls w' =
       volume
       ++ CallCreateSoundBuffer
            {| dwFlags := Z.lor DSBCAPS_GETCURRENTPOSITION2
                                (Z.lor DSBCAPS_GLOBALFOCUS DSBCAPS_CTRLVOLUME);
               dwBufferBytes :=
                 nAvgBytesPerSec (fill_WAVEFORMATEX spec) / 2;
               lpwfxFormat := fill_WAVEFORMATEX spec |} hRes
       :: calls w
    /\ (if FAILED hRes || (attenuation (sink w) =? 0)
        then volume = []
        else exists hr, volume = [CallSetVolume (attenuation (sink w)) hr]).
Proof.
  unfold gst_directsound_sink_prepare, bind, modify_sink, get_sink, ret.
  cbn. intros H.
  destruct (u16 (channels spec) =? 0) eqn:Ech; [discriminate|].
  apply Z.eqb_neq in Ech.
  unfold IDirectSound_CreateSoundBuffer, through_pDS, device_call in H.
  simp_element.
  destruct (is_null (pDS (sink w))) eqn:EpDS; [discriminate|].
  assert (HpDS : pDS (sink w) <> NULL).
  { unfold is_null in EpDS. now apply Z.eqb_neq in EpDS. }
  destruct (CreateSoundBuffer api _ (device w)) as [[hRes p] h].
  simp_element.
  destruct (FAILED hRes) eqn:Ehr; simp_element.
  - invert_done H. exists hRes, p, []. rewrite Ehr. cbn. repeat split; auto.
  - destruct (attenuation (sink w) =? 0) eqn:Eatt; simp_element.
    + invert_done H. exists hRes, p, []. rewrite Ehr. cbn.
      repeat split; auto.
    + unfold IDirectSoundBuffer_SetVolume, through_pDSBSecondary,
        device_call in H. simp_element.
      destruct (is_null p); [discriminate|].
      destruct (SetVolume api _ h) as [hr h'].
      invert_done H.
      exists hRes, p, [CallSetVolume (attenuation (sink w)) hr].
      rewrite Ehr. cbn. repeat split; eauto.
Qed.

(** X3.  An attenuation set while no buffer exists is only stored, with
    no call to the sound card, and is applied by the next prepare that
    succeeds: right after CreateSoundBuffer it calls SetVolume with the
    stored value. *)
Theorem pending_attenuation_applied_by_prepare value (w : World HW) :
  pDSBSecondary (sink w) = NULL ->
  value <> 0 ->
  exists w1,
    gst_directsound_sink_set_property api PROP_ATTENUATION value w
    = Done (tt, w1)
    /\ calls w1 = calls w
    /\ device w1 = device w
    /\ forall spec w2,
        gst_directsound_sink_prepare api spec w1 = Done (true, w2) ->
        attenuation (sink w2) = value
        /\ exists hr desc hRes,
            calls w2 = CallSetVolume value hr
                       :: CallCreateSoundBuffer desc hRes :: calls w
            /\ dwBufferBytes desc = buffer_size (sink w2).
Proof.
  intros Hnull Hvalue.
  destruct (set_property_runs PROP_ATTENUATION value w)
    as (w1 & new & Hrun & Hs & _ & Hc & Hnew).
  unfold is_null in Hnew.
  rewrite Hnull, Z.eqb_refl, andb_false_r in Hnew.
  destruct Hnew as [-> Hdev]. rewrite Z.eqb_refl in Hs.
  exists w1. split; [exact Hrun|]. split; [exact Hc|]. split; [exact Hdev|].
  intros spec w2 Hprep.
  destruct (prepare_inv _ _ _ _ Hprep)
    as (hRes & p & volume & _ & _ & Hok & Hs2 & _ & Hc2 & Hvol).
  rewrite Hs in Hs2, Hvol. cbn in Hvol.
  destruct (FAILED hRes); [discriminate|].
  apply Z.eqb_neq in Hvalue. rewrite Hvalue in Hvol. cbn in Hvol.
  destruct Hvol as [hr ->].
  split; [rewrite Hs2; reflexivity|].
  eexists hr, _, hRes. split; [rewrite Hc2, Hc; reflexivity|].
  rewrite Hs2. reflexivity.
Qed.

(** X4.  prepare returns FALSE exactly when CreateSoundBuffer fails, and
    a failed prepare is not rolled back: either way the new frame size,
    the new capacity (always below 2^31) and the pointer handed back are
    stored.  prepare never touches the write offset, the
    first-write-after-reset flag, the attenuation or the memory, and it
    calls SetVolume exactly when it succeeds with a non-zero
    attenuation. *)
Theorem prepare_outcome spec (w : World HW) ok w' :
  gst_directsound_sink_prepare api spec w = Done (ok, w') ->
  exists hRes desc volume,
    calls w' = volume ++ CallCreateSoundBuffer desc hRes :: calls w
    /\ ok = negb (FAILED hRes)
    /\ (if ok && negb (attenuation (sink w) =? 0)
        then exists hr, volume = [CallSetVolume (attenuation (sink w)) hr]
        else volume = [])
    /\ dwBufferBytes desc = buffer_size (sink w')
    /\ lpwfxFormat desc = fill_WAVEFORMATEX spec
    /\ bytes_per_sample (sink w') = u32 (spec_bytes_per_sample spec)
    /\ buffer_size (sink w') = nAvgBytesPerSec (fill_WAVEFORMATEX spec) / 2
    /\ 0 <= buffer_size (sink w') < 2 ^ 31
    /\ current_circular_offset (sink w') = current_circular_offset (sink w)
    /\ first_buffer_after_reset (sink w')
       = first_buffer_after_reset (sink w)
    /\ attenuation (sink w') = attenuation (sink w)
    /\ pDS (sink w') = pDS (sink w)
    /\ memory w' = memory w.
Proof.
  intros H.
  destruct (prepare_inv _ _ _ _ H)
    as (hRes & p & volume & _ & _ & Hok & Hs & Hm & Hc & Hvol).
  eexists hRes, _, volume. split; [exact Hc|]. split; [exact Hok|].
  split.
  { subst ok. destruct (FAILED hRes); cbn in *; [exact Hvol|].
    destruct (attenuation (sink w) =? 0); exact Hvol. }
  rewrite Hs. cbn.
  pose proof (prepare_buffer_size_bound spec).
  repeat split; auto; lia.
Qed.

(** X5.  For the formats of the pad template (one or two channels, 8 or
    16 bits, bytes_per_sample = channels * width / 8, any rate a gint
    holds) the WAVEFORMATEX handed to the sound card is PCM with that
    channel count and rate, wBitsPerSample = width and
    nBlockAlign = bytes_per_sample. *)
Theorem format_descriptor_of_template_formats spec width :
  channels spec = 1 \/ channels spec = 2 ->
  width = 8 \/ width = 16 ->
  spec_bytes_per_sample spec = channels spec * (width / 8) ->
  1 <= rate spec < 2 ^ 31 ->
  let wfx := fill_WAVEFORMATEX spec in
  wFormatTag wfx = WAVE_FORMAT_PCM
  /\ nChannels wfx = channels spec
  /\ nSamplesPerSec wfx = rate spec
  /\ wBitsPerSample wfx = width
  /\ nBlockAlign wfx = spec_bytes_per_sample spec
  /\ nAvgBytesPerSec wfx = u32 (rate spec * spec_bytes_per_sample spec).
Proof.
  intros Hch Hw Hbps Hrate wfx. subst wfx.
  unfold fill_WAVEFORMATEX. cbn.
  rewrite Hbps.
  assert (Hr : u32 (rate spec) = rate spec) by (apply u32_small; lia).
  rewrite Hr.
  destruct Hch as [-> | ->], Hw as [-> | ->]; repeat split; reflexivity.
Qed.

(** ** Lifecycle *)

Lemma open_inv w ok w' :
  gst_directsound_sink_open api w = Done (ok, w') ->
  exists hRes p,
    fst (DirectSoundCreate api (device w)) = (hRes, p)
    /\ sink w' = set_pDS p (sink w)
    /\ memory w' = memory w
    /\ ((FAILED hRes = true /\ ok = false
         /\ calls w' = CallDirectSoundCreate hRes :: calls w)
        \/ (FAILED hRes = false /\ p <> NULL
            /\ exists hRes2,
                ok = negb (FAILED hRes2)
                /\ calls w' = CallSetCooperativeLevel hRes2
                              :: CallDirectSoundCreate hRes :: calls w)).
Proof.
  unfold gst_directsound_sink_open, bind, device_call, modify_sink, ret.
  intros H.
  destruct (DirectSoundCreate api (device w)) as [[hRes p] h].
  simp_element.
  destruct (FAILED hRes) eqn:Ehr.
  - invert_done H. exists hRes, p. cbn. rewrite Ehr. auto 10.
  - unfold IDirectSound_SetCooperativeLevel, through_pDS, device_call in H.
    simp_element.
    destruct (is_null p) eqn:Ep; [discriminate|].
    destruct (SetCooperativeLevel api h) as [hRes2 h2]. simp_element.
    exists hRes, p. rewrite Ehr.
    assert (Hp : p <> NULL)
      by (unfold is_null in Ep; now apply Z.eqb_neq in Ep).
    destruct (FAILED hRes2) eqn:E2; invert_done H; cbn;
      (split; [reflexivity|]); (split; [reflexivity|]);
      (split; [reflexivity|]); right;
      (split; [reflexivity|]); (split; [exact Hp|]);
      exists hRes2; rewrite E2; auto.
Qed.

Lemma close_runs w :
  exists ok w',
    gst_directsound_sink_close api w = Done (ok, w')
    /\ sink w' = sink w /\ memory w' = memory w
    /\ ok = negb (is_null (pDS (sink w)))
    /\ (if is_null (pDS (sink w)) then w' = w
        else calls w' = CallReleaseDirectSound :: calls w).
Proof.
  unfold gst_directsound_sink_close, bind, get_sink.
  destruct (is_null (pDS (sink w))) eqn:Ep.
  - unfold ret. exists false, w. auto.
  - unfold IDirectSound_Release, through_pDS, device_call, ret.
    rewrite Ep. eexists true, _. split; [reflexivity|]. cbn. auto.
Qed.

Lemma unprepare_runs w :
  exists w',
    gst_directsound_sink_unprepare api w = Done (true, w')
    /\ sink w' = sink w /\ memory w' = memory w
    /\ (if is_null (pDSBSecondary (sink w)) then w' = w
        else calls w' = CallRelease :: calls w).
Proof.
  unfold gst_directsound_sink_unprepare, bind, get_sink.
  destruct (is_null (pDSBSecondary (sink w))) eqn:Ep.
  - unfold ret. exists w. auto.
  - unfold IDirectSoundBuffer_Release, through_pDSBSecondary, device_call,
      ret.
    rewrite Ep. eexists. split; [reflexivity|]. cbn. auto.
Qed.

Lemma delay_inv w n w' :
  gst_directsound_sink_delay api w = Done (n, w') ->
  sink w' = sink w /\ memory w' = memory w
  /\ exists new, calls w' = new ++ calls w /\ forallb is_query new = true.
Proof.
  unfold gst_directsound_sink_delay, bind. intros H.
  destruct (IDirectSoundBuffer_GetStatus api w)
    as [[[hr0 st] w0]| |] eqn:E0; try discriminate.
  apply GetStatus_inv in E0. destruct E0 as (_ & Hs0 & Hm0 & Hc0).
  destruct (has_flag st DSBSTATUS_PLAYING).
  - destruct (IDirectSoundBuffer_GetCurrentPosition api w0)
      as [[[hr cur] w1]| |] eqn:E1; try discriminate.
    apply GetCurrentPosition_inv in E1.
    destruct E1 as (_ & Hs1 & Hm1 & Hc1 & _).
    assert (Hw1 : sink w1 = sink w /\ memory w1 = memory w
                  /\ exists new, calls w1 = new ++ calls w
                                 /\ forallb is_query new = true).
    { split; [congruence|]. split; [congruence|].
      exists [CallGetCurrentPosition hr cur; CallGetStatus hr0 st].
      split; [rewrite Hc1, Hc0; reflexivity|reflexivity]. }
    destruct (hr =? S_OK).
    + unfold get_sink in H.
      destruct (bytes_per_sample (sink w1) =? 0); [discriminate|].
      unfold ret in H. invert_done H. exact Hw1.
    + unfold ret in H. invert_done H. exact Hw1.
  - unfold ret in H. invert_done H.
    split; [exact Hs0|]. split; [exact Hm0|].
    exists [CallGetStatus hr0 st]. split; [exact Hc0|reflexivity].
Qed.

(** What reset does when the element holds a buffer. *)
Lemma reset_with_buffer w :
  pDSBSecondary (sink w) <> NULL ->
  exists w' hr1 hr2 hr3 r tail,
    gst_directsound_sink_reset api w = Done (tt, w')
    /\ calls w' =
       tail ++ [CallLock 0 (buffer_size (sink w)) hr3 r;
                CallSetCurrentPosition 0 hr2; CallStop hr1] ++ calls w
    /\ 0 <= dwSizeBuffer1 r
    /\ (if SUCCEEDED hr3
        then memory w' = memset (pLockedBuffer1 r) Byte.x00
                                (dwSizeBuffer1 r) (memory w)
             /\ exists hr4 r',
                 tail = [CallUnlock r' hr4;
                         CallMemset (pLockedBuffer1 r) (dwSizeBuffer1 r)]
        else memory w' = memory w /\ tail = []).
Proof.
  intros Hp. pose proof (is_null_false _ Hp) as Ep.
  unfold gst_directsound_sink_reset, bind, get_sink.
  rewrite Ep.
  unfold IDirectSoundBuffer_Stop, IDirectSoundBuffer_SetCurrentPosition,
    IDirectSoundBuffer_Lock, IDirectSoundBuffer_Unlock,
    through_pDSBSecondary, device_call, modify_sink, do_memset,
    modify_memory, ret.
  rewrite Ep. destruct (Stop api (device w)) as [hr1 h1]. simp_element.
  rewrite Ep. destruct (SetCurrentPosition api 0 h1) as [hr2 h2].
  simp_element. rewrite Ep.
  destruct (Lock api 0 (buffer_size (sink w)) false h2) as [[hr3 r] h3].
  simp_element.
  destruct (SUCCEEDED hr3) eqn:E3.
  - simp_element. rewrite Ep.
    match goal with
    | |- context [Unlock api ?r' h3] =>
        destruct (Unlock api r' h3) as [hr4 h4]
    end.
    simp_element.
    eexists _, hr1, hr2, hr3,
      {| pLockedBuffer1 := pLockedBuffer1 r;
         dwSizeBuffer1 := u32 (dwSizeBuffer1 r);
         pLockedBuffer2 := pLockedBuffer2 r;
         dwSizeBuffer2 := u32 (dwSizeBuffer2 r) |},
      [CallUnlock _ hr4;
       CallMemset (pLockedBuffer1 r) (u32 (dwSizeBuffer1 r))].
    split; [reflexivity|].
    cbn. rewrite E3. split; [reflexivity|].
    split; [apply u32_range|]. split; [reflexivity|]. eauto.
  - simp_element.
    eexists _, hr1, hr2, hr3,
      {| pLockedBuffer1 := pLockedBuffer1 r;
         dwSizeBuffer1 := u32 (dwSizeBuffer1 r);
         pLockedBuffer2 := pLockedBuffer2 r;
         dwSizeBuffer2 := u32 (dwSizeBuffer2 r) |}, [].
    split; [reflexivity|].
    cbn. rewrite E3. split; [reflexivity|].
    split; [apply u32_range|]. auto.
Qed.

(** ** What each method changes *)

Lemma perform_effect op w w' :
  perform api op w = Done (tt, w') ->
  match op with
  | OpOpen => (exists p, sink w' = set_pDS p (sink w)) /\ memory w' = memory w
  | OpClose | OpUnprepare | OpDelay | OpGetProperty _ =>
      sink w' = sink w /\ memory w' = memory w
  | OpPrepare spec =>
      (exists p,
          sink w' =
          set_pDSBSecondary p
            (set_buffer_size (nAvgBytesPerSec (fill_WAVEFORMATEX spec) / 2)
               (set_bytes_per_sample (u32 (spec_bytes_per_sample spec))
                  (sink w))))
      /\ memory w' = memory w
  | OpWrite _ _ _ =>
      exists off,
        sink w' = set_first_buffer_after_reset false
                    (set_current_circular_offset off (sink w))
        /\ (off = current_circular_offset (sink w)
            \/ off = 0
            \/ (buffer_size (sink w) <> 0
                /\ exists x, off = x mod buffer_size (sink w)))
  | OpReset =>
      sink w' =
      set_first_buffer_after_reset true
        (if is_null (pDSBSecondary (sink w)) then sink w
         else set_current_circular_offset 0 (sink w))
  | OpSetProperty prop_id value =>
      sink w' = (if prop_id =? PROP_ATTENUATION
                 then set_attenuation value (sink w) else sink w)
      /\ memory w' = memory w
  end.
Proof.
  destruct op; cbn [perform]; unfold bind; intros H.
  - destruct (gst_directsound_sink_open api w) as [[ok w1]| |] eqn:E;
      try discriminate.
    unfold ret in H. invert_done H.
    destruct (open_inv _ _ _ E) as (hRes & p & _ & Hs & Hm & _). eauto.
  - destruct (close_runs w) as (ok & w1 & E & Hs & Hm & _).
    rewrite E in H. unfold ret in H. invert_done H. auto.
  - destruct (gst_directsound_sink_prepare api spec w)
      as [[ok w1]| |] eqn:E; try discriminate.
    unfold ret in H. invert_done H.
    destruct (prepare_inv _ _ _ _ E)
      as (hRes & p & volume & _ & _ & _ & Hs & Hm & _). eauto.
  - destruct (unprepare_runs w) as (w1 & E & Hs & Hm & _).
    rewrite E in H. unfold ret in H. invert_done H. auto.
  - destruct (gst_directsound_sink_write api fuel data length w)
      as [[n w1]| |] eqn:E; try discriminate.
    unfold ret in H. invert_done H.
    exact (write_shape _ _ _ _ _ _ E).
  - destruct (gst_directsound_sink_delay api w) as [[n w1]| |] eqn:E;
      try discriminate.
    unfold ret in H. invert_done H.
    destruct (delay_inv _ _ _ E) as (Hs & Hm & _). auto.
  - destruct (reset_runs api w) as (w1 & E & Hs).
    rewrite E in H. invert_done H. exact Hs.
  - destruct (set_property_runs prop_id value w)
      as (w1 & new & E & Hs & Hm & _).
    rewrite E in H. invert_done H. auto.
  - unfold gst_directsound_sink_get_property, bind, get_sink, ret in H.
    destruct (prop_id =? PROP_ATTENUATION); invert_done H; auto.
Qed.

(** X7.  Each method changes only what is its own.  write and reset
    leave the two interface pointers, the capacity, the frame size and
    the attenuation alone (they change at most the write offset and the
    first-write flag).  delay, get_property, close and unprepare change
    nothing of the element and nothing of the memory; in particular
    close and unprepare leave the released pointers in place.  open
    changes only pDS, set_property only the attenuation, and prepare
    leaves pDS, the write offset, the flag and the attenuation; none of
    these three writes to memory. *)
Theorem methods_change_only_their_own op (w : World HW) w' :
  perform api op w = Done (tt, w') ->
  match op with
  | OpWrite _ _ _ | OpReset => same_configuration (sink w) (sink w')
  | OpDelay | OpGetProperty _ | OpClose | OpUnprepare =>
      sink w' = sink w /\ memory w' = memory w
  | OpOpen =>
      sink w' = set_pDS (pDS (sink w')) (sink w) /\ memory w' = memory w
  | OpSetProperty _ _ =>
      sink w' = set_attenuation (attenuation (sink w')) (sink w)
      /\ memory w' = memory w
  | OpPrepare _ =>
      pDS (sink w') = pDS (sink w)
      /\ current_circular_offset (sink w') = current_circular_offset (sink w)
      /\ first_buffer_after_reset (sink w')
         = first_buffer_after_reset (sink w)
      /\ attenuation (sink w') = attenuation (sink w)
      /\ memory w' = memory w
  end.
Proof.
  intros H. apply perform_effect in H. unfold same_configuration.
  destruct op.
  - destruct H as [[p Hs] Hm]. rewrite Hs. auto.
  - exact H.
  - destruct H as [[p Hs] Hm]. rewrite Hs. cbn. auto.
  - exact H.
  - destruct H as (off & Hs & _). rewrite Hs. cbn. auto.
  - exact H.
  - rewrite H. destruct (is_null (pDSBSecondary (sink w))); cbn; auto.
  - destruct H as [Hs Hm]. rewrite Hs.
    destruct (prop_id =? PROP_ATTENUATION); cbn;
      [|rewrite set_attenuation_same]; auto.
  - exact H.
Qed.

(** X6.  In every world the element can reach, whatever the sound card
    and the callers do, the capacity is below 2^31 and the write offset
    and the frame size are 32-bit quantities. *)
Theorem reachable_sizes_fit (w : World HW) :
  reachable api w -> sizes_fit (sink w).
Proof.
  induction 1 as [h m|w op w' Hreach IH Hcall|w h m Hreach IH].
  - unfold sizes_fit. cbn. unfold DSBSIZE_MIN. lia.
  - apply perform_effect in Hcall. unfold sizes_fit in *.
    destruct IH as (Hcap & Hoff & Hbps).
    destruct op.
    + destruct Hcall as [[p ->] _]. cbn. auto.
    + destruct Hcall as [-> _]. auto.
    + destruct Hcall as [[p ->] _]. cbn.
      pose proof (prepare_buffer_size_bound spec).
      pose proof (u32_range (spec_bytes_per_sample spec)). auto.
    + destruct Hcall as [-> _]. auto.
    + destruct Hcall as (off & -> & Hshape). cbn.
      split; [exact Hcap|]. split; [|exact Hbps].
      destruct Hshape as [-> | [-> | (Hne & x & ->)]]; [exact Hoff|lia|].
      pose proof (Z.mod_pos_bound x (buffer_size (sink w))). lia.
    + destruct Hcall as [-> _]. auto.
    + rewrite Hcall.
      destruct (is_null (pDSBSecondary (sink w))); cbn;
        repeat split; lia.
    + destruct Hcall as [-> _].
      destruct (prop_id =? PROP_ATTENUATION); cbn; auto.
    + destruct Hcall as [-> _]. auto.
  - exact IH.
Qed.

Lemma perform_all_reachable ops :
  forall w w',
    reachable api w -> perform_all api ops w = Some w' -> reachable api w'.
Proof.
  induction ops as [|op ops IH]; intros w w' Hreach H; cbn in H.
  - now invert_done H.
  - destruct (perform api op w) as [[[] w1]| |] eqn:E; try discriminate.
    apply IH with w1; [|exact H].
    now apply reachable_call with w op.
Qed.

(** X8.  close on an element that was never opened returns FALSE and
    does nothing.  After an open that returned TRUE, close returns TRUE
    and releases the DirectSound object; it does not clear the pointer,
    so a second close releases the same object again.  An open whose
    DirectSoundCreate fails returns FALSE without calling
    SetCooperativeLevel. *)
Theorem close_needs_open (w : World HW) :
  (pDS (sink w) = NULL -> gst_directsound_sink_close api w = Done (false, w))
  /\ (forall ok w1 hRes p h,
         DirectSoundCreate api (device w) = ((hRes, p), h) ->
         gst_directsound_sink_open api w = Done (ok, w1) ->
         pDS (sink w1) = p
         /\ (FAILED hRes = true ->
             ok = false
             /\ calls w1 = CallDirectSoundCreate hRes :: calls w)
         /\ (ok = true ->
             FAILED hRes = false
             /\ exists w2 w3,
                 gst_directsound_sink_close api w1 = Done (true, w2)
                 /\ calls w2 = CallReleaseDirectSound :: calls w1
                 /\ pDS (sink w2) = pDS (sink w1)
                 /\ gst_directsound_sink_close api w2 = Done (true, w3)
                 /\ calls w3 = CallReleaseDirectSound
                               :: CallReleaseDirectSound :: calls w1)).
Proof.
  split.
  - intros Hnull. destruct (close_runs w) as (ok & w' & E & _ & _ & Hok & Hw).
    unfold is_null in *. rewrite Hnull, Z.eqb_refl in *. subst. exact E.
  - intros ok w1 hRes p h Hcreate Hopen.
    destruct (open_inv _ _ _ Hopen) as (hRes' & p' & Hfst & Hs & _ & Hcase).
    rewrite Hcreate in Hfst. cbn in Hfst. invert_done Hfst.
    split; [rewrite Hs; reflexivity|]. split.
    + intros Hfail.
      destruct Hcase as [(_ & Hok & Hc)|(Hno & _)]; [auto|congruence].
    + intros ->.
      destruct Hcase as [(_ & Hok & _)|(Hno & Hp & _)]; [discriminate|].
      split; [exact Hno|].
      assert (Hp1 : is_null (pDS (sink w1)) = false)
        by (rewrite Hs; cbn; now apply is_null_false).
      destruct (close_runs w1) as (ok2 & w2 & E2 & Hs2 & _ & Hok2 & Hc2).
      rewrite Hp1 in Hok2, Hc2. cbn in Hok2. subst ok2.
      assert (Hp2 : is_null (pDS (sink w2)) = false) by (rewrite Hs2; exact Hp1).
      destruct (close_runs w2) as (ok3 & w3 & E3 & _ & _ & Hok3 & Hc3).
      rewrite Hp2 in Hok3, Hc3. cbn in Hok3. subst ok3.
      exists w2, w3. rewrite Hs2, Hc3, Hc2. auto.
Qed.

(** X9.  unprepare always returns TRUE; it releases the buffer when
    there is one but leaves its pointer in place.  A reset that follows
    therefore still drives the released buffer: it calls Stop,
    SetCurrentPosition (0) and Lock on it; and a second unprepare
    releases it a second time. *)
Theorem unprepare_keeps_released_pointer (w : World HW) :
  pDSBSecondary (sink w) <> NULL ->
  exists w1,
    gst_directsound_sink_unprepare api w = Done (true, w1)
    /\ sink w1 = sink w
    /\ calls w1 = CallRelease :: calls w
    /\ (exists w2 hr1 hr2 hr3 r tail,
           gst_directsound_sink_reset api w1 = Done (tt, w2)
           /\ calls w2 =
              tail ++ [CallLock 0 (buffer_size (sink w)) hr3 r;
                       CallSetCurrentPosition 0 hr2; CallStop hr1;
                       CallRelease] ++ calls w)
    /\ (exists w2,
           gst_directsound_sink_unprepare api w1 = Done (true, w2)
           /\ calls w2 = CallRelease :: CallRelease :: calls w).
Proof.
  intros Hp. pose proof (is_null_false _ Hp) as Ep.
  destruct (unprepare_runs w) as (w1 & E1 & Hs1 & _ & Hc1).
  rewrite Ep in Hc1.
  exists w1. split; [exact E1|]. split; [exact Hs1|]. split; [exact Hc1|].
  split.
  - destruct (reset_with_buffer w1)
      as (w2 & hr1 & hr2 & hr3 & r & tail & E2 & Hc2 & _);
      [rewrite Hs1; exact Hp|].
    exists w2, hr1, hr2, hr3, r, tail. split; [exact E2|].
    rewrite Hc2, Hc1, Hs1. reflexivity.
  - destruct (unprepare_runs w1) as (w2 & E2 & _ & _ & Hc2).
    rewrite Hs1, Ep in Hc2.
    exists w2. split; [exact E2|]. rewrite Hc2, Hc1. reflexivity.
Qed.

(** ** Silence *)

Lemma bytes_at_memset m p n :
  bytes_at (memset p Byte.x00 (Z.of_nat n) m) p n = repeat Byte.x00 n.
Proof.
  unfold bytes_at.
  assert (H : forall i, In i (seq 0 n) ->
                        memset p Byte.x00 (Z.of_nat n) m (p + Z.of_nat i)
                        = Byte.x00).
  { intros i Hi. apply in_seq in Hi. unfold memset.
    destruct (p <=? p + Z.of_nat i) eqn:E1;
      [|apply Z.leb_gt in E1; lia].
    destruct (p + Z.of_nat i <? p + Z.of_nat n) eqn:E2;
      [reflexivity|apply Z.ltb_ge in E2; lia]. }
  rewrite (map_ext_in _ (fun _ => Byte.x00) _ H).
  clear H. generalize 0%nat.
  induction n as [|n IH]; intros k; [reflexivity|].
  cbn. f_equal. apply IH.
Qed.

(** X13.  A reset of an element that holds a buffer asks for a lock of
    the whole capacity from offset 0.  When the lock succeeds, the
    region handed back is filled with zero bytes and no other byte of
    memory changes; when it fails, no byte changes.  Without a buffer
    reset makes no call and changes no byte. *)
Theorem reset_fills_locked_region_with_silence (w : World HW) :
  exists w',
    gst_directsound_sink_reset api w = Done (tt, w')
    /\ (pDSBSecondary (sink w) = NULL ->
        calls w' = calls w /\ memory w' = memory w)
    /\ (pDSBSecondary (sink w) <> NULL ->
        exists hr1 hr2 hRes r tail,
          calls w' =
          tail ++ [CallLock 0 (buffer_size (sink w)) hRes r;
                   CallSetCurrentPosition 0 hr2; CallStop hr1] ++ calls w
          /\ (SUCCEEDED hRes = true ->
              (exists hr4 r',
                  tail = [CallUnlock r' hr4;
                          CallMemset (pLockedBuffer1 r) (dwSizeBuffer1 r)])
              /\ bytes_at (memory w') (pLockedBuffer1 r)
                          (Z.to_nat (dwSizeBuffer1 r))
                 = repeat Byte.x00 (Z.to_nat (dwSizeBuffer1 r))
              /\ forall a,
                  a < pLockedBuffer1 r
                  \/ pLockedBuffer1 r + dwSizeBuffer1 r <= a ->
                  memory w' a = memory w a)
          /\ (SUCCEEDED hRes = false ->
              tail = [] /\ memory w' = memory w)).
Proof.
  destruct (Z.eq_dec (pDSBSecondary (sink w)) NULL) as [Hnull|Hp].
  - exists {| sink := set_first_buffer_after_reset true (sink w);
              device := device w; memory := memory w; calls := calls w |}.
    split; [|split; [auto|contradiction]].
    unfold gst_directsound_sink_reset, bind, get_sink, is_null.
    rewrite Hnull. reflexivity.
  - destruct (reset_with_buffer w Hp)
      as (w' & hr1 & hr2 & hr3 & r & tail & E & Hc & Hn & Hmem).
    exists w'. split; [exact E|]. split; [contradiction|].
    intros _. exists hr1, hr2, hr3, r, tail. split; [exact Hc|].
    destruct (SUCCEEDED hr3).
    + destruct Hmem as [-> Htail]. split; [|discriminate].
      intros _. split; [exact Htail|]. split.
      * rewrite <- (Z2Nat.id (dwSizeBuffer1 r)) at 1 by exact Hn.
        apply bytes_at_memset.
      * intros a Ha. unfold memset.
        destruct (pLockedBuffer1 r <=? a) eqn:E1; [|reflexivity].
        destruct (a <? pLockedBuffer1 r + dwSizeBuffer1 r) eqn:E2;
          [|reflexivity].
        apply Z.leb_le in E1. apply Z.ltb_lt in E2. lia.
    + destruct Hmem as [-> ->]. split; [discriminate|auto].
Qed.

(** ** The two views of the ring: free space and queue *)

(** X10.  With cursor and write offset within the capacity, the free
    space that write computes and the queued bytes that delay computes
    add up to the capacity.  When the cursor equals the write offset the
    buffer counts as full on both sides: no free byte, a whole capacity
    queued. *)
Theorem free_and_queued_make_capacity s cursor :
  0 <= cursor <= buffer_size s ->
  0 <= current_circular_offset s <= buffer_size s ->
  buffer_size s < 2 ^ 31 ->
  dwFreeBufferSize s cursor + dwBytesInQueue s cursor = buffer_size s
  /\ (cursor = current_circular_offset s ->
      dwFreeBufferSize s cursor = 0
      /\ dwBytesInQueue s cursor = buffer_size s).
Proof.
  intros Hc Ho Hb.
  rewrite dwFreeBufferSize_wraps, dwBytesInQueue_wraps.
  rewrite free_bytes_fit, queued_bytes_fit by lia.
  unfold free_bytes, queued_bytes.
  destruct (cursor <? current_circular_offset s) eqn:E.
  - apply Z.ltb_lt in E. lia.
  - apply Z.ltb_ge in E. lia.
Qed.

Lemma queued_after_advance s cursor L :
  offset_in_range s ->
  0 <= cursor <= buffer_size s ->
  0 <= L < free_bytes s cursor ->
  queued_bytes
    (set_current_circular_offset
       ((current_circular_offset s + L) mod buffer_size s) s) cursor
  = queued_bytes s cursor + L
  /\ queued_bytes s cursor + L < buffer_size s.
Proof.
  intros [Hlo Hhi] Hc HL. unfold free_bytes in HL. unfold queued_bytes.
  cbn [current_circular_offset buffer_size set_current_circular_offset].
  destruct (cursor <? current_circular_offset s) eqn:E.
  - apply Z.ltb_lt in E.
    destruct (Z_lt_ge_dec (current_circular_offset s + L) (buffer_size s))
      as [Hfit|Hwrap].
    + rewrite Z.mod_small by lia.
      destruct (cursor <? current_circular_offset s + L) eqn:E';
        [lia|apply Z.ltb_ge in E'; lia].
    + assert (Hmod : (current_circular_offset s + L) mod buffer_size s
                     = current_circular_offset s + L - buffer_size s)
        by (symmetry; apply Z.mod_unique with 1; lia).
      rewrite Hmod.
      destruct (cursor <? current_circular_offset s + L - buffer_size s)
        eqn:E'; [apply Z.ltb_lt in E'; lia|lia].
  - apply Z.ltb_ge in E. rewrite Z.mod_small by lia.
    destruct (cursor <? current_circular_offset s + L) eqn:E';
      [apply Z.ltb_lt in E'; lia|lia].
Qed.

Lemma delay_playing w hRes0 dwStatus w0 cursor w1 :
  IDirectSoundBuffer_GetStatus api w = Done ((hRes0, dwStatus), w0) ->
  has_flag dwStatus DSBSTATUS_PLAYING = true ->
  IDirectSoundBuffer_GetCurrentPosition api w0 = Done ((S_OK, cursor), w1) ->
  0 < bytes_per_sample (sink w) ->
  gst_directsound_sink_delay api w
  = Done (dwBytesInQueue (sink w) cursor / bytes_per_sample (sink w), w1).
Proof.
  intros H0 Hpl H1 Hbps.
  pose proof (GetStatus_inv api _ _ _ _ H0) as (_ & Hs0 & _).
  pose proof (GetCurrentPosition_inv api _ _ _ _ H1) as (_ & Hs1 & _).
  unfold gst_directsound_sink_delay, bind. rewrite H0, Hpl, H1.
  cbn. rewrite Hs1, Hs0.
  destruct (bytes_per_sample (sink w) =? 0) eqn:E;
    [apply Z.eqb_eq in E; lia|].
  unfold ret. rewrite s32_u32_roundtrip; [reflexivity|].
  rewrite dwBytesInQueue_wraps.
  pose proof (u32_range (queued_bytes (sink w) cursor)) as Hq.
  split; [apply Z.div_pos; lia|apply Z.div_lt_upper_bound; nia].
Qed.

Lemma wait_with_room fuel length w dwStatus hRes cursor w0 :
  read_status_and_cursor api w = Done ((dwStatus, hRes, cursor), w0) ->
  SUCCEEDED hRes && has_flag dwStatus DSBSTATUS_PLAYING = true ->
  length < dwFreeBufferSize (sink w) cursor ->
  wait_for_free_space api (S fuel) length w = Done (Proceed dwStatus, w0).
Proof.
  intros Hread Hpl Hroom.
  pose proof (read_status_and_cursor_inv api _ _ _ _ _ Hread)
    as (_ & Hs & _).
  rewrite (wait_playing api _ _ _ _ _ _ _ Hread Hpl), calculate_freesize_step.
  rewrite Hs.
  destruct (length >=? dwFreeBufferSize (sink w) cursor) eqn:E;
    [|reflexivity].
  apply Z.geb_le in E. lia.
Qed.

(** X11.  Take an element whose write offset lies in [0, capacity),
    with a capacity below 2^31, and a write of [length] bytes whose
    first reading succeeds and finds the buffer playing and not lost,
    with the play cursor at most the capacity and [length] below the
    free space counted against it.  If the lock, asked at the write
    offset, succeeds and hands back [length] bytes in all, the write
    returns [length] and raises the queued bytes, counted against the
    same play cursor, by exactly [length], keeping them below the
    capacity: the writer does not overtake the play cursor.  A delay
    query that then finds the buffer playing and reads the same cursor
    with S_OK reports, for a positive frame size, the old queue plus
    [length], divided by the frame size.  (A prepare with a smaller
    capacity can leave the write offset beyond the capacity; that state
    is not covered.) *)
Theorem write_adds_length_to_queue
  fuel data length w dwStatus hRes cursor w0 hLock r w2 :
  read_status_and_cursor api w = Done ((dwStatus, hRes, cursor), w0) ->
  SUCCEEDED hRes && has_flag dwStatus DSBSTATUS_PLAYING = true ->
  has_flag dwStatus DSBSTATUS_BUFFERLOST = false ->
  0 <= length < dwFreeBufferSize (sink w) cursor ->
  offset_in_range (sink w) ->
  buffer_size (sink w) < 2 ^ 31 ->
  cursor <= buffer_size (sink w) ->
  IDirectSoundBuffer_Lock api (current_circular_offset (sink w))
                          length true w0 = Done ((hLock, r), w2) ->
  SUCCEEDED hLock = true ->
  dwSizeBuffer1 r + dwSizeBuffer2 r = length ->
  exists w',
    gst_directsound_sink_write api (S fuel) data length w = Done (length, w')
    /\ dwBytesInQueue (sink w') cursor
       = dwBytesInQueue (sink w) cursor + length
    /\ dwBytesInQueue (sink w') cursor < buffer_size (sink w)
    /\ forall wn hRes0 dwStatus' wn0 wn1,
        sink wn = sink w' ->
        IDirectSoundBuffer_GetStatus api wn = Done ((hRes0, dwStatus'), wn0) ->
        has_flag dwStatus' DSBSTATUS_PLAYING = true ->
        IDirectSoundBuffer_GetCurrentPosition api wn0
        = Done ((S_OK, cursor), wn1) ->
        0 < bytes_per_sample (sink w) ->
        gst_directsound_sink_delay api wn
        = Done ((dwBytesInQueue (sink w) cursor + length)
                / bytes_per_sample (sink w), wn1).
Proof.
  intros Hread Hpl Hlost Hroom Hrange Hcap Hcursor HLock HhL Hsum.
  pose proof Hrange as [Hlo Hhi].
  pose proof (read_status_and_cursor_inv api _ _ _ _ _ Hread)
    as (Hp & Hs & _ & _ & Hcur).
  assert (Hwait : wait_for_free_space api (S fuel) length w
                  = Done (Proceed dwStatus, w0))
    by (apply wait_with_room with hRes cursor; [assumption..|lia]).
  destruct (write_after_poll_runs api data length dwStatus w0)
    as (w1 & hL' & r' & w2' & w' & new & E1 & E2 & Hrun & Hs' & _);
    [congruence|rewrite Hs; lia|].
  unfold restore_if_lost in E1. rewrite Hlost in E1.
  unfold ret in E1. inversion E1; subst w1. clear E1.
  rewrite Hs, HLock in E2. inversion E2; subst hL' r' w2'. clear E2.
  rewrite HhL, Hs in Hs'.
  rewrite Hsum in Hs'.
  rewrite (u32_small length), u32_small in Hs'
    by (rewrite dwFreeBufferSize_wraps, free_bytes_fit in Hroom by lia;
        unfold free_bytes in Hroom;
        destruct (cursor <? current_circular_offset (sink w)) eqn:E;
        [apply Z.ltb_lt in E|apply Z.ltb_ge in E]; lia).
  rewrite dwFreeBufferSize_wraps, free_bytes_fit in Hroom by lia.
  destruct (queued_after_advance (sink w) cursor length Hrange)
    as [Hq Hbelow]; [lia|exact Hroom|].
  assert (Hqueue : dwBytesInQueue (sink w') cursor
                   = dwBytesInQueue (sink w) cursor + length).
  { assert (Hq' : queued_bytes (sink w') cursor
                  = queued_bytes (sink w) cursor + length)
      by (rewrite Hs'; exact Hq).
    pose proof (u32_range (queued_bytes (sink w) cursor)) as Hpos.
    rewrite (queued_bytes_fit (sink w)) in Hpos by lia.
    rewrite !dwBytesInQueue_wraps, Hq'.
    rewrite (queued_bytes_fit (sink w)) by lia.
    apply u32_small. lia. }
  exists w'. split; [rewrite (write_proceeds api _ _ _ _ _ _ Hwait); exact Hrun|].
  split; [exact Hqueue|]. split.
  { rewrite Hqueue, dwBytesInQueue_wraps, queued_bytes_fit by lia.
    exact Hbelow. }
  intros wn hRes0 dwStatus' wn0 wn1 Hsame H0 Hpl' H1 Hbps.
  rewrite (delay_playing wn hRes0 dwStatus' wn0 cursor wn1 H0 Hpl' H1)
    by (rewrite Hsame, Hs'; exact Hbps).
  rewrite Hsame, Hqueue. rewrite Hs'. reflexivity.
Qed.

(** ** Play, polling, and oversized requests *)

Lemma lock_and_copy_calls data length w w' :
  lock_and_copy api data length w = Done (tt, w') ->
  exists new, calls w' = new ++ calls w /\ existsb is_play new = false.
Proof.
  intros H.
  destruct (lock_and_copy_inv _ _ _ _ H) as (hRes & r & w1 & EL & Hcase).
  destruct (SUCCEEDED hRes) eqn:Ehr.
  - destruct Hcase as (Hcap & _).
    destruct (lock_and_copy_succeeded api data length w hRes r w1 EL Ehr Hcap)
      as (w'' & Hrun & _ & _ & Hcalls).
    rewrite Hrun in H. inversion H; subst w''. exact Hcalls.
  - subst w'. apply Lock_inv in EL. destruct EL as (_ & _ & _ & Hc & _).
    eexists [_]. split; [exact Hc|reflexivity].
Qed.

Lemma wait_exit_still_playing fuel length w dwStatus hRes cursor w0
      dwStatus' w1 :
  read_status_and_cursor api w = Done ((dwStatus, hRes, cursor), w0) ->
  has_flag dwStatus DSBSTATUS_PLAYING = true ->
  wait_for_free_space api fuel length w = Done (Proceed dwStatus', w1) ->
  has_flag dwStatus' DSBSTATUS_PLAYING = true.
Proof.
  intros Hread Hpl Hwait.
  unfold wait_for_free_space, bind in Hwait. rewrite Hread in Hwait.
  destruct (SUCCEEDED hRes && has_flag dwStatus DSBSTATUS_PLAYING).
  - apply calculate_freesize_inv in Hwait.
    destruct Hwait as (_ & _ & _ & Hstill). auto.
  - unfold ret in Hwait. inversion Hwait; subst. exact Hpl.
Qed.

(** X12.  A write that reads a playing status at its start never calls
    Play, however it ends: abandoned, with the lock refused, or with the
    data copied. *)
Theorem write_on_playing_buffer_never_calls_play
  fuel data length w dwStatus hRes cursor w0 written w' :
  read_status_and_cursor api w = Done ((dwStatus, hRes, cursor), w0) ->
  has_flag dwStatus DSBSTATUS_PLAYING = true ->
  gst_directsound_sink_write api fuel data length w = Done (written, w') ->
  exists new, calls w' = new ++ calls w /\ existsb is_play new = false.
Proof.
  intros Hread Hpl H.
  destruct (write_inv api _ _ _ _ _ _ H)
    as [[Hwait _]|(dwStatus' & w1 & Hwait & Hrest)];
    pose proof (wait_for_free_space_inv api _ _ _ _ _ Hwait)
      as (_ & _ & (q & Hq & Hqs) & Hs).
  - exists q. split; [exact Hq|now apply queries_are_not_play].
  - pose proof (wait_exit_still_playing _ _ _ _ _ _ _ _ _ Hread Hpl Hwait)
      as Hpl'.
    unfold write_after_poll, bind in Hrest.
    destruct (restore_if_lost api dwStatus' w1) as [[[] w2]| |] eqn:E1;
      try discriminate.
    destruct (lock_and_copy api data length w2) as [[[] w3]| |] eqn:E2;
      try discriminate.
    destruct (play_if_needed api dwStatus' w3) as [[[] w4]| |] eqn:E3;
      try discriminate.
    unfold ret in Hrest. inversion Hrest; subst w4. clear Hrest.
    apply restore_if_lost_inv in E1.
    destruct E1 as (_ & _ & n1 & Hc1 & _ & Hn1).
    apply restores_are_not_play in Hn1.
    apply lock_and_copy_calls in E2. destruct E2 as (n2 & Hc2 & Hn2).
    apply play_if_needed_inv in E3. destruct E3 as (_ & _ & n3 & Hc3 & Hn3).
    rewrite Hpl' in Hn3. cbn in Hn3. subst n3.
    exists (n2 ++ n1 ++ q). split.
    + rewrite Hc3, Hc2, Hc1, Hq, <- !app_assoc. reflexivity.
    + repeat apply existsb_is_play_app; auto.
      now apply queries_are_not_play.
Qed.

Lemma calculate_freesize_still_blocked n :
  forall length cursor dwStatus w,
    blocked_for api n length cursor w = true ->
    calculate_freesize api n length cursor dwStatus w = OutOfFuel.
Proof.
  induction n as [|n IH]; intros length cursor dwStatus w H.
  - reflexivity.
  - cbn [blocked_for] in H. rewrite calculate_freesize_step.
    apply andb_true_iff in H. destruct H as [Hfull H].
    rewrite Hfull. unfold bind.
    destruct (sleep_and_reread api w) as [[[[cur' hr] st'] w1]| |];
      try discriminate.
    apply andb_true_iff in H. destruct H as [Hagain H].
    rewrite Hagain. now apply IH.
Qed.

(** X14.  write has no timeout: as long as each re-read finds the buffer
    playing and no room for the request, it sleeps and polls again, and
    after any number of such retries it has neither returned nor copied
    anything.  Here: with fuel for n retries that all find it so, the
    run ends out of fuel. *)
Theorem write_polls_while_playing_and_full
  fuel data length w dwStatus hRes cursor w0 :
  read_status_and_cursor api w = Done ((dwStatus, hRes, cursor), w0) ->
  SUCCEEDED hRes && has_flag dwStatus DSBSTATUS_PLAYING = true ->
  blocked_for api fuel length cursor w0 = true ->
  gst_directsound_sink_write api fuel data length w = OutOfFuel.
Proof.
  intros Hread Hpl Hblocked.
  unfold gst_directsound_sink_write, bind.
  rewrite (wait_playing api _ _ _ _ _ _ _ Hread Hpl).
  rewrite (calculate_freesize_still_blocked _ _ _ _ _ Hblocked).
  reflexivity.
Qed.

Lemma free_at_most_capacity s cursor :
  offset_in_range s ->
  0 <= cursor <= buffer_size s ->
  buffer_size s < 2 ^ 32 ->
  dwFreeBufferSize s cursor <= buffer_size s.
Proof.
  intros [Hlo Hhi] Hc Hb.
  rewrite dwFreeBufferSize_wraps, free_bytes_fit by lia.
  unfold free_bytes.
  destruct (cursor <? current_circular_offset s) eqn:E;
    [apply Z.ltb_lt in E|apply Z.ltb_ge in E]; lia.
Qed.

Lemma GetCurrentPosition_value w hRes cursor w' :
  IDirectSoundBuffer_GetCurrentPosition api w = Done ((hRes, cursor), w') ->
  exists pos h, GetCurrentPosition api (device w) = ((hRes, pos), h)
                /\ cursor = u32 pos.
Proof.
  unfold IDirectSoundBuffer_GetCurrentPosition. intros H.
  apply through_pDSBSecondary_inv in H. destruct H as [_ H].
  apply device_call_inv in H. destruct H as (_ & _ & _ & Hf).
  destruct (GetCurrentPosition api (device w)) as [[hr pos] h].
  inversion Hf; subst. eauto.
Qed.

Lemma cursor_read_within capacity w hRes cursor w' :
  cursor_within api capacity ->
  capacity < 2 ^ 32 ->
  IDirectSoundBuffer_GetCurrentPosition api w = Done ((hRes, cursor), w') ->
  0 <= cursor <= capacity.
Proof.
  intros Hdev Hcap H.
  destruct (GetCurrentPosition_value _ _ _ _ H) as (pos & h & E & ->).
  pose proof (Hdev _ _ _ _ E). rewrite u32_small; lia.
Qed.

Lemma calculate_freesize_oversized fuel :
  forall length cursor dwStatus w exit w',
    cursor_within api (buffer_size (sink w)) ->
    offset_in_range (sink w) ->
    buffer_size (sink w) < 2 ^ 32 ->
    0 <= cursor <= buffer_size (sink w) ->
    buffer_size (sink w) <= length ->
    calculate_freesize api fuel length cursor dwStatus w = Done (exit, w') ->
    exit = Abandon.
Proof.
  induction fuel as [|fuel IH];
    intros length cursor dwStatus w exit w' Hdev Hrange Hcap Hcur Hlen H.
  - discriminate.
  - rewrite calculate_freesize_step in H.
    pose proof (free_at_most_capacity _ _ Hrange Hcur Hcap) as Hfree.
    destruct (length >=? dwFreeBufferSize (sink w) cursor) eqn:E;
      [|rewrite Z.geb_leb in E; apply Z.leb_gt in E; lia].
    unfold bind in H.
    destruct (sleep_and_reread api w) as [[[[cur' hr] st'] w1]| |] eqn:Ere;
      try discriminate.
    assert (Hcur' : 0 <= cur' <= buffer_size (sink w)).
    { revert Ere. unfold sleep_and_reread, bind, do_Sleep, ret.
      destruct (device_call _ _ w) as [[[] wa]| |]; try discriminate.
      destruct (IDirectSoundBuffer_GetCurrentPosition api wa)
        as [[[hrp cur''] wb]| |] eqn:Epos; try discriminate.
      destruct (IDirectSoundBuffer_GetStatus api wb)
        as [[[hrs st''] wc]| |]; try discriminate.
      intros Ere. inversion Ere; subst.
      now apply cursor_read_within with wa hrp wb. }
    apply sleep_and_reread_inv in Ere. destruct Ere as (_ & Hs1 & _).
    destruct (SUCCEEDED hr && has_flag st' DSBSTATUS_PLAYING).
    + apply IH in H; try rewrite Hs1; auto.
    + unfold modify_sink, ret in H. now inversion H.
Qed.

(** X15.  Take an element whose write offset lies in [0, capacity),
    with a capacity below 2^32, on a device whose play cursor stays
    within the capacity, and a write whose first position read succeeds
    and finds the buffer playing.  Then a request of at least the
    capacity can never pass the blocking check, since the free space
    never exceeds the capacity and the check wants strictly more room
    than the request: such a write, if it returns at all, was
    abandoned; it returns 0, has copied nothing, has left the write
    offset where it was and has made only status, position and sleep
    calls.  (Neither a write offset beyond the capacity nor a failed
    position read is covered.) *)
Theorem oversized_write_never_passes_check
  fuel data length w dwStatus hRes cursor w0 written w' :
  cursor_within api (buffer_size (sink w)) ->
  offset_in_range (sink w) ->
  buffer_size (sink w) < 2 ^ 32 ->
  buffer_size (sink w) <= length ->
  read_status_and_cursor api w = Done ((dwStatus, hRes, cursor), w0) ->
  SUCCEEDED hRes && has_flag dwStatus DSBSTATUS_PLAYING = true ->
  gst_directsound_sink_write api fuel data length w = Done (written, w') ->
  written = 0
  /\ memory w' = memory w
  /\ current_circular_offset (sink w') = current_circular_offset (sink w)
  /\ exists new, calls w' = new ++ calls w /\ forallb is_query new = true.
Proof.
  intros Hdev Hrange Hcap Hlen Hread Hpl H.
  assert (Hcur : 0 <= cursor <= buffer_size (sink w)).
  { revert Hread. unfold read_status_and_cursor, bind, ret.
    destruct (IDirectSoundBuffer_GetStatus api w)
      as [[[hrs st] wa]| |] eqn:Est; try discriminate.
    destruct (IDirectSoundBuffer_GetCurrentPosition api wa)
      as [[[hrp cur] wb]| |] eqn:Epos; try discriminate.
    intros Hread. inversion Hread; subst.
    now apply cursor_read_within with wa hRes w0. }
  pose proof (read_status_and_cursor_inv api _ _ _ _ _ Hread)
    as (_ & Hs & _).
  destruct (write_inv api _ _ _ _ _ _ H)
    as [[Hwait ->]|(dwStatus' & w1 & Hwait & _)].
  - pose proof (wait_for_free_space_inv api _ _ _ _ _ Hwait)
      as (_ & Hm & Hq & Hs').
    rewrite Hs'. auto.
  - exfalso.
    rewrite (wait_playing api _ _ _ _ _ _ _ Hread Hpl) in Hwait.
    apply calculate_freesize_oversized in Hwait;
      try rewrite Hs; auto; discriminate.
Qed.

(** X16.  On a buffer of capacity 0 (what prepare stores when the byte
    rate is below 2, as for 1 Hz mono 8 bit) a write whose lock succeeds
    divides by zero when it wraps the write offset. *)
Theorem write_divides_by_zero_capacity
  fuel data length w dwStatus w0 w1 hRes r w2 :
  buffer_size (sink w) = 0 ->
  wait_for_free_space api fuel length w = Done (Proceed dwStatus, w0) ->
  restore_if_lost api dwStatus w0 = Done (tt, w1) ->
  IDirectSoundBuffer_Lock api (current_circular_offset (sink w1))
                          length true w1 = Done ((hRes, r), w2) ->
  SUCCEEDED hRes = true ->
  gst_directsound_sink_write api fuel data length w = Crash DivisionByZero.
Proof.
  intros Hzero Hwait E1 E2 Hhr.
  pose proof (wait_for_free_space_inv api _ _ _ _ _ Hwait) as (_ & _ & _ & Hs).
  pose proof (restore_if_lost_inv api _ _ _ E1) as (_ & Hs1 & _).
  pose proof (Lock_inv api _ _ _ _ _ _ _ E2) as (_ & Hs2 & _).
  assert (Hcap1 : buffer_size (sink w1) = 0).
  { rewrite Hs1, Hs.
    destruct (has_flag dwStatus DSBSTATUS_BUFFERLOST); exact Hzero. }
  rewrite (write_proceeds api _ _ _ _ _ _ Hwait).
  unfold write_after_poll, bind. rewrite E1.
  unfold lock_and_copy, bind, get_sink. rewrite E2, Hhr.
  unfold do_memcpy, modify_memory, modify_sink, ret.
  destruct (is_null (pLockedBuffer2 r)); simp_element;
    rewrite Hs2, Hcap1; reflexivity.
Qed.

(** X17.  After a reset of an element that holds a buffer, playback is
    restarted by the second write, not the first: the first write that
    finds the buffer not playing returns its length without any Play
    call and clears the flag, and the next write that finds it not
    playing calls Play, looping, as the last thing it does to the
    device. *)
Theorem reset_then_second_write_starts_playback (w : World HW) :
  pDSBSecondary (sink w) <> NULL ->
  buffer_size (sink w) <> 0 ->
  exists w1,
    gst_directsound_sink_reset api w = Done (tt, w1)
    /\ first_buffer_after_reset (sink w1) = true
    /\ forall fuel data length wa dwStatus hRes cursor wa0,
        sink wa = sink w1 ->
        read_status_and_cursor api wa
        = Done ((dwStatus, hRes, cursor), wa0) ->
        has_flag dwStatus DSBSTATUS_PLAYING = false ->
        exists wb new,
          gst_directsound_sink_write api fuel data length wa
          = Done (length, wb)
          /\ calls wb = new ++ calls wa
          /\ existsb is_play new = false
          /\ forall fuel' data' length' wc dwStatus' hRes' cursor' wc0,
              sink wc = sink wb ->
              read_status_and_cursor api wc
              = Done ((dwStatus', hRes', cursor'), wc0) ->
              has_flag dwStatus' DSBSTATUS_PLAYING = false ->
              exists wd hr rest,
                gst_directsound_sink_write api fuel' data' length' wc
                = Done (length', wd)
                /\ calls wd = (CallPlay DSBPLAY_LOOPING hr :: rest)
                              ++ calls wc
                /\ existsb is_play rest = false.
Proof.
  intros Hp Hcap.
  destruct (reset_runs api w) as (w1 & E1 & Hs1).
  rewrite (is_null_false _ Hp) in Hs1.
  exists w1. split; [exact E1|]. split; [rewrite Hs1; reflexivity|].
  intros fuel data length wa dwStatus hRes cursor wa0 Hsa Hread Hpl.
  destruct (write_not_playing api fuel data length wa _ _ _ _ Hread Hpl)
    as (wb & new & Hrun & Hflag & Hc & Hplay).
  { rewrite Hsa, Hs1. exact Hcap. }
  rewrite Hsa, Hs1 in Hplay. cbn in Hplay.
  exists wb, new. split; [exact Hrun|]. split; [exact Hc|].
  split; [exact Hplay|].
  intros fuel' data' length' wc dwStatus' hRes' cursor' wc0 Hsc Hread' Hpl'.
  destruct (write_shape _ _ _ _ _ _ Hrun) as (off & Hsb & _).
  destruct (write_not_playing api fuel' data' length' wc _ _ _ _ Hread' Hpl')
    as (wd & new' & Hrun' & _ & Hc' & Hplay').
  { rewrite Hsc, Hsb, Hsa, Hs1. exact Hcap. }
  rewrite Hsc, Hflag in Hplay'.
  destruct Hplay' as (hr & rest & -> & Hrest).
  exists wd, hr, rest. auto.
Qed.

(** ** A lost buffer, and no buffer *)

Lemma restore_lost_runs dwStatus w :
  pDSBSecondary (sink w) <> NULL ->
  has_flag dwStatus DSBSTATUS_BUFFERLOST = true ->
  exists hr w1,
    restore_if_lost api dwStatus w = Done (tt, w1)
    /\ sink w1 = set_current_circular_offset 0 (sink w)
    /\ memory w1 = memory w
    /\ calls w1 = CallRestore hr :: calls w.
Proof.
  intros Hp Hlost. unfold restore_if_lost. rewrite Hlost.
  unfold bind, IDirectSoundBuffer_Restore, through_pDSBSecondary,
    device_call, modify_sink.
  rewrite (is_null_false _ Hp).
  destruct (Restore api (device w)) as [hr h].
  eexists hr, _. split; [reflexivity|]. cbn. auto.
Qed.

Lemma u32_involutive x : u32 (u32 x) = u32 x.
Proof. apply u32_small, u32_range. Qed.

(** X18.  When the status reports a lost buffer, write calls Restore,
    ignores its result, forgets the old write offset and asks for the
    lock at offset 0; it returns [length] whether or not that lock
    succeeds, and the write offset ends at the bytes locked modulo the
    capacity, or at 0 when the lock failed. *)
Theorem lost_buffer_is_restored_and_written_from_zero
  fuel data length w dwStatus w0 :
  wait_for_free_space api fuel length w = Done (Proceed dwStatus, w0) ->
  has_flag dwStatus DSBSTATUS_BUFFERLOST = true ->
  buffer_size (sink w) <> 0 ->
  exists hrRestore w1 hLock r w2 w',
    restore_if_lost api dwStatus w0 = Done (tt, w1)
    /\ calls w1 = CallRestore hrRestore :: calls w0
    /\ IDirectSoundBuffer_Lock api 0 length true w1 = Done ((hLock, r), w2)
    /\ calls w2 = CallLock 0 length hLock r
                  :: CallRestore hrRestore :: calls w0
    /\ gst_directsound_sink_write api fuel data length w = Done (length, w')
    /\ current_circular_offset (sink w') =
       (if SUCCEEDED hLock
        then u32 (dwSizeBuffer1 r + dwSizeBuffer2 r) mod buffer_size (sink w)
        else 0).
Proof.
  intros Hwait Hlost Hcap.
  pose proof (wait_for_free_space_inv api _ _ _ _ _ Hwait) as (Hp & _ & _ & Hs).
  assert (Hp0 : pDSBSecondary (sink w0) <> NULL) by congruence.
  destruct (restore_lost_runs dwStatus w0 Hp0 Hlost)
    as (hrR & w1 & E1 & Hs1 & _ & Hc1).
  destruct (write_after_poll_runs api data length dwStatus w0)
    as (w1' & hL & r & w2 & w' & new & E1' & E2 & Hrun & Hs' & _);
    [exact Hp0|congruence|].
  rewrite E1 in E1'. inversion E1'; subst w1'. clear E1'.
  rewrite Hs1 in E2. cbn in E2.
  pose proof (Lock_inv api _ _ _ _ _ _ _ E2) as (_ & _ & _ & Hc2 & Hn1 & Hn2).
  exists hrR, w1, hL, r, w2, w'.
  split; [exact E1|]. split; [exact Hc1|]. split; [exact E2|].
  split; [rewrite Hc2, Hc1; reflexivity|].
  split; [rewrite (write_proceeds api _ _ _ _ _ _ Hwait); exact Hrun|].
  rewrite Hs', Hs1, Hs.
  destruct (SUCCEEDED hL); cbn; [|reflexivity].
  rewrite ?Z.add_0_l, u32_involutive. reflexivity.
Qed.

(** X19.  write and delay call through the buffer pointer without a
    test: on an element that holds no buffer they dereference NULL.
    reset, unprepare and set_property test the pointer first: without a
    buffer they return normally and make no call to the sound card. *)
Theorem only_write_and_delay_need_a_buffer (w : World HW) :
  pDSBSecondary (sink w) = NULL ->
  (forall fuel data length,
      gst_directsound_sink_write api fuel data length w
      = Crash NullDereference)
  /\ gst_directsound_sink_delay api w = Crash NullDereference
  /\ (exists w', gst_directsound_sink_reset api w = Done (tt, w')
                  /\ calls w' = calls w /\ device w' = device w)
  /\ gst_directsound_sink_unprepare api w = Done (true, w)
  /\ (forall prop_id value,
         exists w', gst_directsound_sink_set_property api prop_id value w
                    = Done (tt, w')
                    /\ calls w' = calls w /\ device w' = device w).
Proof.
  intros Hnull.
  assert (Ep : is_null (pDSBSecondary (sink w)) = true)
    by (unfold is_null; rewrite Hnull; reflexivity).
  assert (Hstatus : IDirectSoundBuffer_GetStatus api w
                    = Crash NullDereference).
  { unfold IDirectSoundBuffer_GetStatus, through_pDSBSecondary.
    rewrite Ep. reflexivity. }
  split; [|split; [|split; [|split]]].
  - intros fuel data length.
    unfold gst_directsound_sink_write, wait_for_free_space,
      read_status_and_cursor, bind.
    rewrite Hstatus. reflexivity.
  - unfold gst_directsound_sink_delay, bind. rewrite Hstatus. reflexivity.
  - unfold gst_directsound_sink_reset, bind, get_sink. rewrite Ep.
    unfold ret, modify_sink. eexists. split; [reflexivity|]. cbn. auto.
  - unfold gst_directsound_sink_unprepare, bind, get_sink. rewrite Ep.
    reflexivity.
  - intros prop_id value.
    destruct (set_property_runs prop_id value w)
      as (w' & new & Hrun & _ & _ & Hc & Hnew).
    rewrite Ep, andb_false_r in Hnew. destruct Hnew as [-> Hdev].
    exists w'. auto.
Qed.

End ElementProofs.

(** ** Concrete runs for the methods beside the write path *)

(** Evaluate a run, leaving the memory as the copies made of it. *)
Ltac run := cbv -[TestDevice.ramp memcpy memset].

(** Replace a world that a run equation determines by its value. *)
Ltac pin_world H :=
  let H' := fresh in
  pose proof H as H'; cbv -[TestDevice.ramp memcpy memset] in H';
  match type of H' with
  | Done (_, ?v) = Done (_, ?w) =>
      let E := fresh in assert (E : w = v) by congruence; subst w
  end;
  clear H'.

(** -5000 set on an opened element without buffer, then prepare: the
    buffer is created and its volume set to -5000. *)
Lemma pending_attenuation_applied_by_prepare_witness :
  exists w1 w2 hr desc hRes,
    gst_directsound_sink_set_property TestDevice.api PROP_ATTENUATION (-5000)
                                      TestDevice.opened = Done (tt, w1)
    /\ gst_directsound_sink_prepare TestDevice.api TestDevice.cd_quality w1
       = Done (true, w2)
    /\ calls w2 = [CallSetVolume (-5000) hr; CallCreateSoundBuffer desc hRes].
Proof.
  destruct (pending_attenuation_applied_by_prepare TestDevice.api (-5000)
              TestDevice.opened) as (w1 & Hset & _ & _ & Hprep).
  - reflexivity.
  - discriminate.
  - pin_world Hset.
    match type of Hset with
    | _ = Done (_, ?v) =>
        eassert (E : gst_directsound_sink_prepare TestDevice.api
                       TestDevice.cd_quality v = Done (true, _))
          by (run; reflexivity)
    end.
    destruct (Hprep _ _ E) as (_ & hr & desc & hRes & Hc & _).
    eexists _, _, hr, desc, hRes.
    split; [exact Hset|]. split; [exact E|exact Hc].
Defined.

(** prepare on a session whose write offset is 86000: TRUE, and the
    offset still 86000. *)
Lemma prepare_outcome_witness :
  exists w',
    gst_directsound_sink_prepare TestDevice.api TestDevice.cd_quality
                                 TestDevice.near_the_end = Done (true, w')
    /\ current_circular_offset (sink w') = 86000
    /\ buffer_size (sink w') = 88200.
Proof.
  eassert (E : gst_directsound_sink_prepare TestDevice.api
                 TestDevice.cd_quality TestDevice.near_the_end
               = Done (true, _)) by (run; reflexivity).
  destruct (prepare_outcome TestDevice.api _ _ _ _ E)
    as (hRes & desc & volume & _ & _ & _ & _ & _ & _ & Hcap & _ & Hoff & _).
  eexists. split; [exact E|]. split; [exact Hoff|exact Hcap].
Defined.

(** Stereo, 16 bit, 44100 Hz: 16 bits per sample, block alignment 4. *)
Lemma format_descriptor_of_template_formats_witness :
  wBitsPerSample (fill_WAVEFORMATEX TestDevice.cd_quality) = 16
  /\ nBlockAlign (fill_WAVEFORMATEX TestDevice.cd_quality) = 4.
Proof.
  destruct (format_descriptor_of_template_formats TestDevice.cd_quality 16)
    as (_ & _ & _ & Hbits & Halign & _).
  - right. reflexivity.
  - right. reflexivity.
  - reflexivity.
  - by_evaluation.
  - split; [exact Hbits|exact Halign].
Defined.

(** open, prepare, a write, a new attenuation, a reset: the sizes still
    fit. *)
Lemma reachable_sizes_fit_witness :
  exists w,
    perform_all TestDevice.api
      [OpOpen; OpPrepare TestDevice.cd_quality; OpWrite 1 1000 4096;
       OpSetProperty PROP_ATTENUATION (-5000); OpReset]
      TestDevice.fresh = Some w
    /\ sizes_fit (sink w).
Proof.
  eassert (E : perform_all TestDevice.api
                 [OpOpen; OpPrepare TestDevice.cd_quality;
                  OpWrite 1 1000 4096;
                  OpSetProperty PROP_ATTENUATION (-5000); OpReset]
                 TestDevice.fresh = Some _) by (run; reflexivity).
  eexists. split; [exact E|].
  apply (reachable_sizes_fit TestDevice.api).
  eapply perform_all_reachable; [|exact E].
  apply (reachable_init TestDevice.api (TestDevice.idle 4)
                        (fun _ => Byte.x00)).
Defined.

(** A write through the method table keeps the configuration. *)
Lemma methods_change_only_their_own_witness :
  exists w',
    perform TestDevice.api (OpWrite 1 1000 4096) TestDevice.near_the_end
    = Done (tt, w')
    /\ same_configuration (sink TestDevice.near_the_end) (sink w').
Proof.
  eassert (E : perform TestDevice.api (OpWrite 1 1000 4096)
                       TestDevice.near_the_end = Done (tt, _))
    by (run; reflexivity).
  eexists. split; [exact E|].
  exact (methods_change_only_their_own TestDevice.api _ _ _ E).
Defined.

(** unprepare on a prepared session: TRUE, the pointer still 4096. *)
Lemma unprepare_keeps_released_pointer_witness :
  exists w1,
    gst_directsound_sink_unprepare TestDevice.api TestDevice.near_the_end
    = Done (true, w1)
    /\ pDSBSecondary (sink w1) = 4096
    /\ calls w1 = [CallRelease].
Proof.
  destruct (unprepare_keeps_released_pointer TestDevice.api
              TestDevice.near_the_end) as (w1 & E & Hs & Hc & _).
  - discriminate.
  - exists w1. split; [exact E|]. rewrite Hs. split; [reflexivity|exact Hc].
Defined.

(** Cursor at 1000, write offset at 4096 of 88200: 85104 bytes free and
    3096 queued. *)
Lemma free_and_queued_make_capacity_witness :
  dwFreeBufferSize (TestDevice.session 4096 false) 1000
  + dwBytesInQueue (TestDevice.session 4096 false) 1000 = 88200.
Proof.
  apply (free_and_queued_make_capacity (TestDevice.session 4096 false) 1000);
    by_evaluation.
Defined.

(** Playing, cursor at 0, write offset at 100: a write of 4096 bytes
    raises the queue from 100 to 4196 bytes. *)
Lemma write_adds_length_to_queue_witness :
  exists w',
    gst_directsound_sink_write TestDevice.api 1 1000 4096
                               TestDevice.playing_with_room
    = Done (4096, w')
    /\ dwBytesInQueue (sink w') 0 = 4196.
Proof.
  edestruct (write_adds_length_to_queue TestDevice.api 0%nat 1000 4096
               TestDevice.playing_with_room) as (w' & Hrun & Hq & _).
  - reflexivity.
  - reflexivity.
  - reflexivity.
  - by_evaluation.
  - by_evaluation.
  - by_evaluation.
  - by_evaluation.
  - reflexivity.
  - reflexivity.
  - reflexivity.
  - exists w'. split; [exact Hrun|].
    etransitivity; [exact Hq|reflexivity].
Defined.

(** The same write makes no Play call. *)
Lemma write_on_playing_buffer_never_calls_play_witness :
  exists w' new,
    gst_directsound_sink_write TestDevice.api 1 1000 4096
                               TestDevice.playing_with_room
    = Done (4096, w')
    /\ calls w' = new ++ calls TestDevice.playing_with_room
    /\ existsb is_play new = false.
Proof.
  eassert (E : gst_directsound_sink_write TestDevice.api 1 1000 4096
                 TestDevice.playing_with_room = Done (4096, _))
    by (run; reflexivity).
  edestruct (write_on_playing_buffer_never_calls_play TestDevice.api
               1%nat 1000 4096 TestDevice.playing_with_room)
    as (new & Hc & Hn).
  - reflexivity.
  - reflexivity.
  - exact E.
  - eexists _, new. split; [exact E|]. split; [exact Hc|exact Hn].
Defined.

(** Playing, the cursor on the write offset and not moving: twenty
    retries and the write has not returned. *)
Lemma write_polls_while_playing_and_full_witness :
  gst_directsound_sink_write TestDevice.api 20 1000 4096
                             TestDevice.full_and_static = OutOfFuel.
Proof.
  eapply (write_polls_while_playing_and_full TestDevice.api 20%nat 1000 4096
            TestDevice.full_and_static).
  - reflexivity.
  - reflexivity.
  - vm_compute. reflexivity.
Defined.

Lemma clamped_cursor_within (capacity : Z) :
  0 <= capacity -> cursor_within (TestDevice.clamped capacity) capacity.
Proof.
  intros Hc h hRes pos h' E. cbn in E. inversion E. lia.
Qed.

(** A request of the whole capacity on a playing buffer: abandoned when
    the playback stops, 0 returned. *)
Lemma oversized_write_never_passes_check_witness :
  exists w',
    gst_directsound_sink_write (TestDevice.clamped 88200) 5 1000 88200
                               TestDevice.full_then_stopped = Done (0, w')
    /\ current_circular_offset (sink w') = 100.
Proof.
  eassert (E : gst_directsound_sink_write (TestDevice.clamped 88200)
                 5 1000 88200 TestDevice.full_then_stopped = Done (_, _))
    by (run; reflexivity).
  edestruct (oversized_write_never_passes_check (TestDevice.clamped 88200)
               5%nat 1000 88200 TestDevice.full_then_stopped)
    as (Hw & _ & Ho & _).
  - apply clamped_cursor_within. by_evaluation.
  - by_evaluation.
  - by_evaluation.
  - by_evaluation.
  - reflexivity.
  - reflexivity.
  - exact E.
  - eexists. split; [exact E|]. rewrite Ho. reflexivity.
Defined.

(** prepare for 1 Hz mono 8 bit stores a capacity of 0, and the write
    that follows divides by it. *)
Lemma write_divides_by_zero_capacity_witness :
  exists w1,
    gst_directsound_sink_prepare TestDevice.api TestDevice.one_hertz_mono
                                 TestDevice.opened = Done (true, w1)
    /\ buffer_size (sink w1) = 0
    /\ gst_directsound_sink_write TestDevice.api 1 1000 16 w1
       = Crash DivisionByZero.
Proof.
  eassert (E : gst_directsound_sink_prepare TestDevice.api
                 TestDevice.one_hertz_mono TestDevice.opened
               = Done (true, _)) by (run; reflexivity).
  eexists. split; [exact E|]. split; [reflexivity|].
  eapply (write_divides_by_zero_capacity TestDevice.api 1%nat 1000 16).
  - reflexivity.
  - reflexivity.
  - reflexivity.
  - reflexivity.
  - reflexivity.
Defined.

(** reset of a playing session, then two writes: the second one calls
    Play. *)
Lemma reset_then_second_write_starts_playback_witness :
  exists w1 wb wd hr rest new,
    gst_directsound_sink_reset TestDevice.api TestDevice.playing_with_queue
    = Done (tt, w1)
    /\ gst_directsound_sink_write TestDevice.api 1 1000 4096 w1
       = Done (4096, wb)
    /\ calls wb = new ++ calls w1
    /\ existsb is_play new = false
    /\ gst_directsound_sink_write TestDevice.api 1 1000 4096 wb
       = Done (4096, wd)
    /\ calls wd = (CallPlay DSBPLAY_LOOPING hr :: rest) ++ calls wb.
Proof.
  destruct (reset_then_second_write_starts_playback TestDevice.api
              TestDevice.playing_with_queue) as (w1 & Hreset & _ & Hfirst).
  - discriminate.
  - discriminate.
  - pin_world Hreset.
    edestruct Hfirst with (fuel := 1%nat) (data := 1000) (length := 4096)
      as (wb & new & Hw1 & Hc1 & Hn1 & Hsecond).
    + reflexivity.
    + reflexivity.
    + reflexivity.
    + pin_world Hw1.
      edestruct Hsecond with (fuel' := 1%nat) (data' := 1000)
                             (length' := 4096)
        as (wd & hr & rest & Hw2 & Hc2 & _).
      * reflexivity.
      * reflexivity.
      * reflexivity.
      * eexists _, _, wd, hr, rest, new.
        split; [exact Hreset|]. split; [exact Hw1|].
        split; [exact Hc1|]. split; [exact Hn1|].
        split; [exact Hw2|exact Hc2].
Defined.

(** A lost buffer with the write offset at 1000: the write returns its
    4096 bytes and leaves the offset at 4096, not 5096. *)
Lemma lost_buffer_is_restored_and_written_from_zero_witness :
  exists w',
    gst_directsound_sink_write TestDevice.api 1 1000 4096 TestDevice.lost
    = Done (4096, w')
    /\ current_circular_offset (sink w') = 4096.
Proof.
  edestruct (lost_buffer_is_restored_and_written_from_zero TestDevice.api
               1%nat 1000 4096 TestDevice.lost)
    as (hrRestore & w1 & hLock & r & w2 & w' & E1 & _ & E2 & _ & Hw & Hoff).
  - reflexivity.
  - reflexivity.
  - discriminate.
  - pin_world E1.
    cbv -[TestDevice.ramp memcpy memset] in E2.
    injection E2 as <- <- _.
    exists w'. split; [exact Hw|]. rewrite Hoff. reflexivity.
Defined.

(** Opened but not prepared: delay and write dereference NULL. *)
Lemma only_write_and_delay_need_a_buffer_witness :
  gst_directsound_sink_delay TestDevice.api TestDevice.opened
  = Crash NullDereference
  /\ gst_directsound_sink_write TestDevice.api 1 1000 16 TestDevice.opened
     = Crash NullDereference.
Proof.
  destruct (only_write_and_delay_need_a_buffer TestDevice.api
              TestDevice.opened) as (Hw & Hd & _).
  - reflexivity.
  - split; [exact Hd|apply Hw].
Defined.
